(** * developer-gateway: a shallow embedding of the transaction pipeline

    The development follows the layout of the repository:

    - [Insecure]  auth/insecure/insecure.go   (InsecureAuth.Verify)
    - [Oauth]     auth/oauth/google.go        (GoogleOauth.Verify)
    - [Mem]       mqueue/mem server           (Server.discard, Server.Discard)
    - [Redis]     mqueue/redis client         (MQueue.retrieve)
    - [Noise]     noise fixed connection pool (DialFixedPool, dialConnection)
    - [Eth]       backend/eth/client.go       (EthClient)
    - [Http]      net/http requests as the auth code reads them
    - [AuthCore]  auth/core/http.go           (HttpMiddlewareAuth.ServeHTTP)
    - [Ekiden]    backend/ekiden client       (GetPublicKey, submitTx)

    Go values are modelled as the code has them: [uint64] and [uint] as [Z]
    with the wrap-around written out, Go strings as [string] (one [ascii]
    per byte), [error] results as [option] or a sum, the [map] of workers as
    a [gmap], channels as FIFO lists, goroutines as entries of a task pool
    scheduled by a step relation. *)

From Stdlib Require Import ZArith Lia List Bool Ascii String.
From stdpp Require Import base option list gmap strings.
Import ListNotations.

Local Open Scope string_scope.
Local Open Scope list_scope.
Local Open Scope Z_scope.

(** ** Go primitives shared by the packages *)

(** [len(s)] of a Go string: its number of bytes. *)
Definition len (s : string) : Z := Z.of_nat (String.length s).

(** [strings.Contains(s, substr)]. *)
Fixpoint Contains (s substr : string) : bool :=
  String.prefix substr s
  || match s with
     | EmptyString => false
     | String _ s' => Contains s' substr
     end.

(** Wrap-around of [uint64] (and of [uint] on the 64-bit targets the gateway
    is built for). *)
Definition uint64_mod : Z := 2 ^ 64.
Definition wrap64 (z : Z) : Z := z mod uint64_mod.

(** Go's [error]: [None] is [nil], [Some msg] an error whose [Error()] text
    is [msg]. *)
Definition error : Type := option string.

(** ** net/http: what the gateway reads of a request *)

Module Http.

(** [*http.Request]: the header, indexed by the key [Header.Get] is called
    with (Go compares keys in canonical form), and the values of the
    request's context the gateway stores and reads, of type [Ctx]. *)
Record Request (Ctx : Type) : Type := {
  Header : gmap string string;
  Context : Ctx
}.
Arguments Header {Ctx} _.
Arguments Context {Ctx} _.

(** [req.Header.Get(key)]: the value, or the empty string. *)
Definition HeaderGet {Ctx : Type} (req : Request Ctx) (key : string) : string :=
  default "" (Header req !! key).

(** [req.WithContext(ctx)] *)
Definition WithContext {Ctx Ctx' : Type} (req : Request Ctx) (ctx : Ctx')
    : Request Ctx' :=
  {| Header := Header req; Context := ctx |}.

End Http.

(** ** auth/insecure *)

Module Insecure.

Definition ErrDataTooShort : string := "Payload data is too short".

(** [func (InsecureAuth) Verify(data string, expectedAAD string) error] *)
Definition Verify (data expectedAAD : string) : error :=
  if len data =? 0 then Some ErrDataTooShort else None.

(** [const HeaderKey string = "X-OASIS-INSECURE-AUTH"] *)
Definition HeaderKey : string := "X-OASIS-INSECURE-AUTH".

(** [func (a InsecureAuth) Authenticate(req *http.Request) (string, error)] *)
Definition Authenticate {Ctx : Type} (req : Http.Request Ctx) : string * error :=
  let value := Http.HeaderGet req HeaderKey in
  if len value =? 0 then ("", Some ErrDataTooShort) else (value, None).

End Insecure.

(** ** auth/oauth *)

Module Oauth.

(** [auth.AuthRequest] is declared in auth/core; [Verify] reads its [API]
    and [AAD] fields only. *)
Record AuthRequest : Type := {
  API : string;
  AAD : string
}.

(** The request context: [core.MustGetAAD(ctx)] returns the value stored
    under [core.AAD{}] and panics when there is none. *)
Record Context : Type := { ctxAAD : option string }.

(** Outcome of a call that may panic. *)
Inductive outcome (A : Type) : Type :=
| Returns (a : A)
| Panics.
Arguments Returns {A} a.
Arguments Panics {A}.

Definition MustGetAAD (ctx : Context) : outcome string :=
  match ctxAAD ctx with
  | Some aad => Returns aad
  | None => Panics
  end.

(** [func (GoogleOauth) Verify(ctx context.Context, data auth.AuthRequest) error] *)
Definition Verify (ctx : Context) (data : AuthRequest) : outcome error :=
  if String.eqb (API data) "Deploy"
  then Returns (Some "GoogleOauth cannot authorize a user to deploy a service")
  else
    match MustGetAAD ctx with
    | Panics => Panics
    | Returns expectedAAD =>
        if negb (String.eqb (AAD data) expectedAAD)
        then Returns (Some "AAD does not match")
        else Returns None
    end.

(** [OpenIDClaims] and [ID_TOKEN_KEY] *)
Record OpenIDClaims : Type := {
  Email : string;
  EmailVerified : bool
}.

Definition ID_TOKEN_KEY : string := "X-ID-TOKEN".

Section Authenticate.

(** The [IDTokenVerifier] in use (the one of the [GoogleOauth] value, or the
    Google verifier built when there is none) and [IDToken.Claims]: each
    answers with a value or an error. *)
Variable IDToken : Type.
Variable verifier_Verify : string -> IDToken + string.
Variable token_Claims : IDToken -> OpenIDClaims + string.

(** [func (g GoogleOauth) Authenticate(req)], which returns a request and an
    error; the new context holds the e-mail under the key [core.AAD{}]. *)
Definition Authenticate (req : Http.Request Context)
    : Http.Request Context * error :=
  let rawIDToken := Http.HeaderGet req ID_TOKEN_KEY in
  match verifier_Verify rawIDToken with
  | inr err => (req, Some err)
  | inl idToken =>
      match token_Claims idToken with
      | inr err => (req, Some err)
      | inl claims =>
          if negb (EmailVerified claims)
          then (req, Some "Email is unverified")
          else (Http.WithContext req {| ctxAAD := Some (Email claims) |}, None)
      end
  end.

End Authenticate.

End Oauth.

(** ** mqueue/mem *)

Module Mem.

(** [core.Element] and [core.Elements] of mqueue/core, with the fields the
    two mailbox variants read and write. *)
Record Element : Type := {
  Offset : Z;
  Type_ : string;
  Value : string
}.

Record Elements : Type := {
  WindowOffset : Z;
  Items : list Element
}.

(** Requests received on [Server.inCh]; the reply channel [Out] of each
    request is modelled by the value the handler sends on it. *)
Inductive request : Type :=
| insertWorkerRequest (Key : string) (El : Element)
| retrieveWorkerRequest (Key : string) (Offset : Z) (Count : Z)
| discardWorkerRequest (Key : string) (Offset : Z)
| nextWorkerRequest (Key : string).

(** What is sent on [req.Out]: a [chan error], a [chan core.Elements] or a
    [chan uint64] depending on the request. *)
Inductive reply : Type :=
| replyError (e : error)
| replyElements (els : Elements)
| replyOffset (offset : Z).

Section Server.

(** The per-key [Worker] lives in another file of the package. Its state
    and what each of its methods sends on the reply channel it is
    handed are parameters of the server. *)
Variable Worker : Type.
Variable NewWorker : string -> Worker.
Variable Worker_Insert : Element -> Worker -> error * Worker.
Variable Worker_Retrieve : Z -> Z -> Worker -> Elements * Worker.
Variable Worker_Discard : Z -> Worker -> error * Worker.
Variable Worker_Next : Worker -> Z * Worker.

Record Server : Type := { workers : gmap string Worker }.

Definition NewServer : Server := {| workers := ∅ |}.

Definition setWorker (key : string) (w : Worker) (s : Server) : Server :=
  {| workers := <[key := w]> (workers s) |}.

(** [func (s *Server) insert(req insertWorkerRequest)] *)
Definition insert (key : string) (el : Element) (s : Server) : reply * Server :=
  let worker :=
    match workers s !! key with
    | Some worker => worker
    | None => NewWorker key
    end in
  let '(e, worker') := Worker_Insert el worker in
  (replyError e, setWorker key worker' s).

(** [func (s *Server) retrieve(req retrieveWorkerRequest)] *)
Definition retrieve (key : string) (offset count : Z) (s : Server) : reply * Server :=
  match workers s !! key with
  | None => (replyElements {| WindowOffset := 0; Items := [] |}, s)
  | Some worker =>
      let '(els, worker') := Worker_Retrieve offset count worker in
      (replyElements els, setWorker key worker' s)
  end.

(** [func (s *Server) discard(req discardWorkerRequest)] *)
Definition discard (key : string) (offset : Z) (s : Server) : reply * Server :=
  match workers s !! key with
  | None =>
      (replyError (Some "attempt to discard queue that does not exist"), s)
  | Some worker =>
      let '(e, worker') := Worker_Discard offset worker in
      (replyError e, setWorker key worker' s)
  end.

(** [func (s *Server) next(req nextWorkerRequest)] *)
Definition next (key : string) (s : Server) : reply * Server :=
  let worker :=
    match workers s !! key with
    | Some worker => worker
    | None => NewWorker key
    end in
  let '(offset, worker') := Worker_Next worker in
  (replyOffset offset, setWorker key worker' s).

(** [func (s *Server) serveRequest(req interface{})] *)
Definition serveRequest (req : request) (s : Server) : reply * Server :=
  match req with
  | insertWorkerRequest key el => insert key el s
  | retrieveWorkerRequest key offset count => retrieve key offset count s
  | discardWorkerRequest key offset => discard key offset s
  | nextWorkerRequest key => next key s
  end.

(** The public methods put one request on [inCh], the server loop serves
    it, and the method reads the reply from [out]. *)

(** [func (s *Server) Insert(key string, element core.Element) error]:
    [return <-out]. *)
Definition Insert (key : string) (el : Element) (s : Server) : error * Server :=
  match serveRequest (insertWorkerRequest key el) s with
  | (replyError e, s') => (e, s')
  | (_, s') => (None, s')
  end.

(** [func (s *Server) Discard(key string, offset uint64) error]:
    [<-out] receives the reply and drops it, then [return nil]. *)
Definition Discard (key : string) (offset : Z) (s : Server) : error * Server :=
  let '(_, s') := serveRequest (discardWorkerRequest key offset) s in
  (None, s').

(** [func (s *Server) removeWorker(key string)], run by the loop when a
    worker has signalled its idle timeout on [doneCh]: the worker is stopped
    and its entry deleted; an absent key is only logged. *)
Definition removeWorker (key : string) (s : Server) : Server :=
  match workers s !! key with
  | None => s
  | Some _ => {| workers := delete key (workers s) |}
  end.

(** [func (s *Server) Retrieve(key, offset, count) (core.Elements, error)]:
    [return <-out, nil]. *)
Definition Retrieve (key : string) (offset count : Z) (s : Server)
    : (Elements * error) * Server :=
  match serveRequest (retrieveWorkerRequest key offset count) s with
  | (replyElements els, s') => ((els, None), s')
  | (_, s') => (({| WindowOffset := 0; Items := [] |}, None), s')
  end.

(** [func (s *Server) Next(key string) (uint64, error)]: [return <-out, nil]. *)
Definition Next (key : string) (s : Server) : (Z * error) * Server :=
  match serveRequest (nextWorkerRequest key) s with
  | (replyOffset offset, s') => ((offset, None), s')
  | (_, s') => ((0, None), s')
  end.

(** The key a request is about. *)
Definition requestKey (req : request) : string :=
  match req with
  | insertWorkerRequest key _ | retrieveWorkerRequest key _ _
  | discardWorkerRequest key _ | nextWorkerRequest key => key
  end.

(** What the [select] of the server loop receives: a request on [inCh] or
    the key of an idle worker on [doneCh]. *)
Inductive input : Type :=
| fromInCh (req : request)
| fromDoneCh (key : string).

(** One iteration of the loop of [startLoop], and the loop over the inputs
    it receives, with the replies it sends, in order. *)
Definition serveInput (i : input) (s : Server) : list reply * Server :=
  match i with
  | fromInCh req => let '(r, s') := serveRequest req s in ([r], s')
  | fromDoneCh key => ([], removeWorker key s)
  end.

Fixpoint serveLoop (inputs : list input) (s : Server) : list reply * Server :=
  match inputs with
  | [] => ([], s)
  | i :: rest =>
      let '(rs1, s1) := serveInput i s in
      let '(rs2, s2) := serveLoop rest s1 in
      (rs1 ++ rs2, s2)
  end.

End Server.

(** The keys that have a queue after the loop has received [inputs], from
    the keys [live] that had one before: [Insert] and [Next] add their key,
    an idle timeout removes its key, [Retrieve] and [Discard] change
    nothing. *)
Fixpoint liveKeys (inputs : list input) (live : gset string) : gset string :=
  match inputs with
  | [] => live
  | fromInCh (insertWorkerRequest key _) :: rest
  | fromInCh (nextWorkerRequest key) :: rest => liveKeys rest (live ∪ {[key]})
  | fromInCh (retrieveWorkerRequest _ _ _) :: rest
  | fromInCh (discardWorkerRequest _ _) :: rest => liveKeys rest live
  | fromDoneCh key :: rest => liveKeys rest (live ∖ {[key]})
  end.

End Mem.

(** ** mqueue/redis *)

Module Redis.

(** [redisElement]: one entry as the script encodes it. *)
Record redisElement : Type := {
  Offset : Z;
  Type_ : string;
  Value : string;
  Set_ : bool
}.

Inductive Err : Type :=
| ErrRedisExec (cause : string)
| ErrDeserialize (cause : string).

Section Retrieve.

(** [json.Unmarshal] into a [redisElement] and into a [string]: the
    decoded value, or the decoder's error. *)
Variable unmarshalElement : string -> redisElement + string.
Variable unmarshalString : string -> string + string.

(** The body of the [for _, el := range els] loop of [MQueue.retrieve],
    threading [res], [offsetSet] and [offset]. *)
Fixpoint retrieveLoop (els : list string) (res : list Mem.Element)
    (offsetSet : bool) (offset : Z) : Err + Mem.Elements :=
  match els with
  | [] => inr {| Mem.WindowOffset := offset; Mem.Items := res |}
  | el :: els' =>
      match unmarshalElement el with
      | inr err => inl (ErrDeserialize err)
      | inl decoded =>
          let offset' := if offsetSet then offset else Offset decoded in
          if negb (Set_ decoded) then retrieveLoop els' res true offset'
          else
            match unmarshalString (Value decoded) with
            | inr err => inl (ErrDeserialize err)
            | inl value =>
                retrieveLoop els'
                  (res ++ [{| Mem.Offset := Offset decoded;
                              Mem.Type_ := Type_ decoded;
                              Mem.Value := value |}])
                  true offset'
            end
      end
  end.

(** [func (m *MQueue) retrieve(ctx, req) (core.Elements, error)], given
    what [m.exec] answered for the retrieve script. *)
Definition retrieve (execResult : list string + string) : Err + Mem.Elements :=
  match execResult with
  | inr err => inl (ErrRedisExec err)
  | inl els => retrieveLoop els [] false 0
  end.

(** The element [retrieve] appends for a decoded entry that is set. *)
Definition toElement (decoded : redisElement) : option Mem.Element :=
  match unmarshalString (Value decoded) with
  | inl value => Some {| Mem.Offset := Offset decoded;
                         Mem.Type_ := Type_ decoded;
                         Mem.Value := value |}
  | inr _ => None
  end.

(** Every blob of the script's answer decodes, to the entries [ds]. *)
Definition decodesTo (blobs : list string) (ds : list redisElement) : Prop :=
  Forall2 (fun blob d => unmarshalElement blob = inl d) blobs ds.

(** The content of every entry that is set decodes as a string. *)
Definition setValuesDecode (ds : list redisElement) : Prop :=
  Forall (fun d => Set_ d = true -> is_Some (toElement d)) ds.

(** The offset the loop ends with: the one it already holds, or the offset
    of the first entry it sees. *)
Definition windowOffset (offsetSet : bool) (offset : Z)
    (ds : list redisElement) : Z :=
  if offsetSet then offset
  else match ds with
       | [] => offset
       | d :: _ => Offset d
       end.

End Retrieve.

End Redis.

(** ** noise: the fixed connection pool *)

Module Noise.

Section Pool.

(** [Conn], [Channel], [SessionProps] and [DialContext] are declared in
    other files of the package. The transport is a state machine [World]
    and [DialContext] answers with a connection or an error. *)
Variable Conn : Type.
Variable World : Type.
Variable DialContext : World -> (Conn + string) * World.

(** What the pool has done with its connections so far. *)
Record Pool : Type := {
  world : World;
  loops : list Conn;      (* goroutines running [startConnLoop], one per connection *)
  cancelled : bool;       (* [cancel()] of the pool's context was called *)
  closed : list Conn      (* connections the pool has closed *)
}.

Definition newPool (w : World) : Pool :=
  {| world := w; loops := []; cancelled := false; closed := [] |}.

(** [func (p *FixedConnPool) dialConnection(ctx, channel, props) error] *)
Definition dialConnection (p : Pool) : error * Pool :=
  match DialContext (world p) with
  | (inr err, w) =>
      (Some err,
       {| world := w; loops := loops p; cancelled := cancelled p;
          closed := closed p |})
  | (inl conn, w) =>
      (None,
       {| world := w; loops := loops p ++ [conn]; cancelled := cancelled p;
          closed := closed p |})
  end.

(** [cancel()]: every [startConnLoop] takes its [<-ctx.Done()] branch and
    returns; it does nothing with its [conn] on the way out. *)
Definition cancel (p : Pool) : Pool :=
  {| world := world p; loops := loops p; cancelled := true;
     closed := closed p |}.

(** The [for i := 0; i < props.Conns; i++] loop of [DialFixedPool]. *)
Fixpoint dialAll (n : nat) (p : Pool) : error * Pool :=
  match n with
  | O => (None, p)
  | S n' =>
      match dialConnection p with
      | (Some err, p') => (Some err, cancel p')
      | (None, p') => dialAll n' p'
      end
  end.

(** [func DialFixedPool(ctx, props)]: the pool and the error it returns. *)
Definition DialFixedPool (Conns : Z) (w : World) : error * Pool :=
  dialAll (Z.to_nat Conns) (newPool w).

End Pool.

End Noise.

(** ** backend/eth: the wallet's client *)

Module Eth.

(** [const gasPrice int64 = 1000000000] *)
Definition gasPrice : Z := 1000000000.

(** [rpc.Error] *)
Record rpcError : Type := {
  Description : string;
  ErrorCode : Z
}.

(** The events the client puts on a request's [Out] channel. The client
    builds [service.ErrorEvent] values in [runTransaction] before a nonce is
    allocated and [backend.ErrorEvent] values everywhere else. *)
Inductive Event : Type :=
| service_ErrorEvent (ID : Z) (Cause : rpcError)
| backend_ErrorEvent (ID : Z) (Cause : rpcError)
| backend_ExecuteServiceEvent (ID : Z) (Address : string).

(** [backend.ExecuteServiceRequest] and [backend.DeployServiceRequest] *)
Record ExecuteServiceRequest : Type := {
  esData : string;
  esAddress : string;
  esKey : string
}.

Record DeployServiceRequest : Type := {
  dsData : string;
  dsKey : string
}.

(** A reply channel [chan backend.Event], by identity. *)
Definition chan : Type := nat.

(** [ethRequest]: the two request structs behind the interface. The
    [Context] field only travels to the backend and the logger and is left
    out. *)
Inductive ethRequest : Type :=
| executeServiceRequest (Attempts : Z) (Out : chan) (ID : Z)
    (Request : ExecuteServiceRequest)
| deployServiceRequest (Attempts : Z) (Out : chan) (ID : Z)
    (Request : DeployServiceRequest).

Definition RequestID (r : ethRequest) : Z :=
  match r with
  | executeServiceRequest _ _ id _ | deployServiceRequest _ _ id _ => id
  end.

Definition GetAttempts (r : ethRequest) : Z :=
  match r with
  | executeServiceRequest a _ _ _ | deployServiceRequest a _ _ _ => a
  end.

Definition OutCh (r : ethRequest) : chan :=
  match r with
  | executeServiceRequest _ out _ _ | deployServiceRequest _ out _ _ => out
  end.

(** [r.Attempts++] on a [uint]. *)
Definition IncAttempts (r : ethRequest) : ethRequest :=
  match r with
  | executeServiceRequest a out id req =>
      executeServiceRequest (wrap64 (a + 1)) out id req
  | deployServiceRequest a out id req =>
      deployServiceRequest (wrap64 (a + 1)) out id req
  end.

(** The address and the data [request]'s closures hand to
    [executeTransaction]: [deployService] passes the empty address. *)
Definition reqAddress (r : ethRequest) : string :=
  match r with
  | executeServiceRequest _ _ _ req => esAddress req
  | deployServiceRequest _ _ _ _ => ""
  end.

Definition reqData (r : ethRequest) : string :=
  match r with
  | executeServiceRequest _ _ _ req => esData req
  | deployServiceRequest _ _ _ req => dsData req
  end.

(** go-ethereum's [common.Address] and [common.Hash], by their bytes. *)
Definition Address : Type := string.
Definition Hash : Type := string.

(** [types.Transaction]: the fields its two constructors set, and the
    signature [types.SignTx] adds. *)
Record Transaction : Type := {
  txNonce : Z;
  txTo : option Address;
  txValue : Z;
  txGas : Z;
  txGasPrice : Z;
  txData : string;
  txSignature : option string
}.

(** [types.NewContractCreation(nonce, amount, gasLimit, gasPrice, data)] *)
Definition NewContractCreation (nonce amount gasLimit price : Z) (data : string)
    : Transaction :=
  {| txNonce := nonce; txTo := None; txValue := amount; txGas := gasLimit;
     txGasPrice := price; txData := data; txSignature := None |}.

(** [types.NewTransaction(nonce, to, amount, gasLimit, gasPrice, data)] *)
Definition NewTransaction (nonce : Z) (to : Address) (amount gasLimit price : Z)
    (data : string) : Transaction :=
  {| txNonce := nonce; txTo := Some to; txValue := amount; txGas := gasLimit;
     txGasPrice := price; txData := data; txSignature := None |}.

Definition isContractCreation (tx : Transaction) : bool :=
  match txTo tx with
  | None => true
  | Some _ => false
  end.

(** [ethereum.CallMsg] *)
Record CallMsg : Type := {
  From : Address;
  To : option Address;
  Gas : Z;
  GasPrice : Z;
  Value : Z;
  Data : string
}.

(** [types.Receipt], the two fields read. *)
Record Receipt : Type := {
  Status : Z;
  ContractAddress : Address
}.

(** The error definitions of the gateway's [errors] package the client
    refers to. *)
Inductive ErrKind : Type :=
| ErrEstimateGas
| ErrSignedTx
| ErrSendTransaction
| ErrTransactionReceipt
| ErrTransactionReceiptStatus
| ErrFetchPendingNonce
| ErrInvalidAddress.

(** What the client relies on and does not define: the node behind
    [ethclient.Client] (a state machine [World]), go-ethereum's address and
    signing functions, the wallet's address, and the code, description and
    text of the gateway's errors. *)
Record Backend : Type := {
  World : Type;
  PendingNonceAt : Address -> World -> (Z + string) * World;
  EstimateGas : CallMsg -> World -> (Z + string) * World;
  SendTransaction : Transaction -> World -> error * World;
  TransactionReceipt : Hash -> World -> (Receipt + string) * World;
  SignTx : Transaction -> Transaction + string;
  TxHash : Transaction -> Hash;
  HexToAddress : string -> Address;
  AddressHex : Address -> string;
  walletAddress : Address;
  ErrDesc : ErrKind -> string;
  ErrCode : ErrKind -> Z;
  ErrText : ErrKind -> string -> string
}.

Existing Class Backend.

(** Everything the client does that another party can see, in order: its
    calls to the node and to the signer, the goroutines it starts, the
    requests it puts back on [inCh] and the events it sends on reply
    channels. [CallWalletOutOfFunds] stands for a call of the out-of-funds
    callback: [EthClient] holds no callback client, and none of its
    functions records this effect. *)
Inductive Effect : Type :=
| CallPendingNonceAt (a : Address)
| CallEstimateGas (msg : CallMsg)
| CallSignTx (tx : Transaction)
| CallSendTransaction (tx : Transaction)
| CallTransactionReceipt (h : Hash)
| CallWalletOutOfFunds (a : Address)
| Go (nonce : Z) (req : ethRequest)
| Requeue (req : ethRequest)
| ChanSend (out : chan) (ev : Event).

Section Client.

Context {B : Backend}.

(** [EthClient] with the goroutines it has started: [inCh] is the FIFO
    content of the channel (its buffer bound of 64 only makes a sender
    wait and is not modelled), [tasks] the goroutines [runTransaction] has
    spawned that have not run yet, each with the nonce it captured, [world]
    the state of the node and [trace] the effects so far. *)
Record State : Type := {
  inCh : list ethRequest;
  nonce : Z;
  tasks : list (Z * ethRequest);
  world : World B;
  trace : list Effect
}.

Definition setInCh (q : list ethRequest) (s : State) : State :=
  {| inCh := q; nonce := nonce s; tasks := tasks s; world := world s;
     trace := trace s |}.

Definition setNonce (n : Z) (s : State) : State :=
  {| inCh := inCh s; nonce := n; tasks := tasks s; world := world s;
     trace := trace s |}.

Definition setTasks (ts : list (Z * ethRequest)) (s : State) : State :=
  {| inCh := inCh s; nonce := nonce s; tasks := ts; world := world s;
     trace := trace s |}.

Definition setWorld (w : World B) (s : State) : State :=
  {| inCh := inCh s; nonce := nonce s; tasks := tasks s; world := w;
     trace := trace s |}.

Definition emit (e : Effect) (s : State) : State :=
  {| inCh := inCh s; nonce := nonce s; tasks := tasks s; world := world s;
     trace := trace s ++ [e] |}.

(** The client's code runs in a state monad over [State]. *)
Definition M (A : Type) : Type := State -> A * State.

Definition ret {A : Type} (a : A) : M A := fun s => (a, s).

Definition bind {A C : Type} (m : M A) (k : A -> M C) : M C :=
  fun s => let '(a, s') := m s in k a s'.

Notation "x <- m ;; k" := (bind m (fun x => k))
  (at level 100, m at level 99, right associativity).
Notation "m ;;; k" := (bind m (fun _ => k))
  (at level 100, right associativity).

(** A call to the node: recorded, then answered by the backend. *)
Definition call {A : Type} (e : Effect) (f : World B -> A * World B) : M A :=
  fun s => let '(a, w) := f (world s) in (a, emit e (setWorld w s)).

(** [out <- ev] *)
Definition chanSend (out : chan) (ev : Event) : M unit :=
  fun s => (tt, emit (ChanSend out ev) s).

(** [c.inCh <- req] *)
Definition push (req : ethRequest) : M unit :=
  fun s => (tt, setInCh (inCh s ++ [req]) s).

(** [func (c *EthClient) Nonce(ctx, address string) (uint64, errors.Err)] *)
Definition Nonce (address : string) : M (Z + string) :=
  r <- call (CallPendingNonceAt (HexToAddress B address))
         (PendingNonceAt B (HexToAddress B address)) ;;
  match r with
  | inr err => ret (inr (ErrText B ErrFetchPendingNonce err))
  | inl n => ret (inl n)
  end.

(** The [for attempts := 0; attempts < 10; attempts++] loop of
    [updateNonce], with the iterations that are left. *)
Fixpoint updateNonceLoop (left : nat) : M error :=
  match left with
  | O => ret (Some "exceeded attempts to update nonce")
  | S left' =>
      r <- Nonce (AddressHex B (walletAddress B)) ;;
      match r with
      | inr _ => updateNonceLoop left'
      | inl n =>
          fun s =>
            (None, if nonce s <? n then setNonce n s else s)
      end
  end.

(** [func (c *EthClient) updateNonce(ctx) error] *)
Definition updateNonce : M error := updateNonceLoop 10.

(** The message [estimateGas] sends for an address and a payload. *)
Definition estimateMsg (address data : string) : CallMsg :=
  {| From := walletAddress B;
     To := if 0 <? len address then Some (HexToAddress B address) else None;
     Gas := 0;
     GasPrice := gasPrice;
     Value := 0;
     Data := data |}.

(** [func (c *EthClient) estimateGas(ctx, id, address, data) (uint64, error)] *)
Definition estimateGas (id : Z) (address data : string) : M (Z + string) :=
  let msg := estimateMsg address data in
  call (CallEstimateGas msg) (EstimateGas B msg).

Definition errorEvent (id : Z) (k : ErrKind) : Event :=
  backend_ErrorEvent id {| Description := ErrDesc B k; ErrorCode := ErrCode B k |}.

(** The transaction [executeTransaction] builds once gas is estimated. *)
Definition buildTx (nonce : Z) (address : string) (gas : Z) (data : string)
    : Transaction :=
  if len address =? 0
  then NewContractCreation nonce 0 gas gasPrice data
  else NewTransaction nonce (HexToAddress B address) 0 gas gasPrice data.

(** [func (c *EthClient) executeTransaction(ctx, nonce, id, address, data)
    (backend.Event, error)]: [inl event] stands for [(event, nil)] and
    [inr text] for [(nil, err)] with [err.Error() = text]. *)
Definition executeTransaction (nonce id : Z) (address data : string)
    : M (Event + string) :=
  g <- estimateGas id address data ;;
  match g with
  | inr _ => ret (inl (errorEvent id ErrEstimateGas))
  | inl gas =>
      let tx := buildTx nonce address gas data in
      signed <- call (CallSignTx tx) (fun w => (SignTx B tx, w)) ;;
      match signed with
      | inr _ => ret (inl (errorEvent id ErrSignedTx))
      | inl tx =>
          sent <- call (CallSendTransaction tx) (SendTransaction B tx) ;;
          match sent with
          | Some err => ret (inr (ErrText B ErrSendTransaction err))
          | None =>
              rc <- call (CallTransactionReceipt (TxHash B tx))
                      (TransactionReceipt B (TxHash B tx)) ;;
              match rc with
              | inr _ => ret (inl (errorEvent id ErrTransactionReceipt))
              | inl receipt =>
                  if negb (Status receipt =? 1)
                  then ret (inl (errorEvent id ErrTransactionReceiptStatus))
                  else ret (inl (backend_ExecuteServiceEvent id
                                   (AddressHex B (ContractAddress receipt))))
              end
          end
      end
  end.

(** [deployService] and [executeService] *)
Definition deployService (nonce id : Z) (req : DeployServiceRequest)
    : M (Event + string) :=
  executeTransaction nonce id "" (dsData req).

Definition executeService (nonce id : Z) (req : ExecuteServiceRequest)
    : M (Event + string) :=
  executeTransaction nonce id (esAddress req) (esData req).

(** The closure [request] passes to [runTransaction] as [fn], chosen by the
    dynamic type of the request. *)
Definition fn (nonce : Z) (req : ethRequest) : M (Event + string) :=
  match req with
  | executeServiceRequest _ _ id request => executeService nonce id request
  | deployServiceRequest _ _ id request => deployService nonce id request
  end.

(** The body of the goroutine [runTransaction] starts with [go func()]. *)
Definition transactionTask (nonce : Z) (req : ethRequest) : M unit :=
  r <- fn nonce req ;;
  match r with
  | inr err =>
      if Contains err "nonce"
      then
        let req' := IncAttempts req in
        (fun s => (tt, emit (Requeue req') s)) ;;; push req'
      else
        chanSend (OutCh req)
          (backend_ErrorEvent (RequestID req)
             {| Description := err; ErrorCode := -1 |})
  | inl event => chanSend (OutCh req) event
  end.

(** [go func() { ... }()]: the goroutine is created with the nonce it
    captured and runs when the scheduler picks it. *)
Definition spawn (n : Z) (req : ethRequest) : M unit :=
  fun s => (tt, emit (Go n req) (setTasks (tasks s ++ [(n, req)]) s)).

(** [func (c *EthClient) runTransaction(req, fn)], up to and including the
    [go] statement. *)
Definition runTransaction (req : ethRequest) : M unit :=
  if 10 <=? GetAttempts req then
    chanSend (OutCh req)
      (service_ErrorEvent (RequestID req)
         {| Description := "failed to execute service"; ErrorCode := -1 |})
  else
    err <- (if 0 <? GetAttempts req then updateNonce else ret None) ;;
    match err with
    | Some _ =>
        chanSend (OutCh req)
          (service_ErrorEvent (RequestID req)
             {| Description := "failed to update nonce"; ErrorCode := -1 |})
    | None =>
        fun s =>
          let n := nonce s in
          spawn n req (setNonce (wrap64 (n + 1)) s)
    end.

(** [func (c *EthClient) request(req ethRequest)]: both cases of the type
    switch call [runTransaction]. *)
Definition request (req : ethRequest) : M unit := runTransaction req.

(** [DeployService] and [ExecuteService] up to their [return <-out]: the
    request they put on [inCh], or the event returned at once. *)
Definition DeployService (out : chan) (id : Z) (req : DeployServiceRequest)
    : M (option Event) :=
  push (deployServiceRequest 0 out id req) ;;; ret None.

Definition ExecuteService (out : chan) (id : Z) (req : ExecuteServiceRequest)
    : M (option Event) :=
  if len (esAddress req) =? 0
  then ret (Some (errorEvent id ErrInvalidAddress))
  else push (executeServiceRequest 0 out id req) ;;; ret None.

(** One move of the client: the loop of [startLoop] receives the next
    request from [inCh] and serves it, or the scheduler runs one of the
    spawned goroutines. *)
Inductive step : State -> State -> Prop :=
| step_loop (s : State) (req : ethRequest) (rest : list ethRequest) :
    inCh s = req :: rest ->
    step s (snd (request req (setInCh rest s)))
| step_task (s : State) (before after : list (Z * ethRequest))
    (n : Z) (req : ethRequest) :
    tasks s = before ++ (n, req) :: after ->
    step s (snd (transactionTask n req (setTasks (before ++ after) s))).

(** Two schedules as functions: the loop serves the head of [inCh]; the
    scheduler runs the [i]-th waiting goroutine. *)
Definition loopStep (s : State) : State :=
  match inCh s with
  | [] => s
  | req :: rest => snd (request req (setInCh rest s))
  end.

Definition taskStep (i : nat) (s : State) : State :=
  match tasks s !! i with
  | None => s
  | Some (n, req) =>
      snd (transactionTask n req (setTasks (take i (tasks s) ++ drop (S i) (tasks s)) s))
  end.

(** States the client reaches from [s]. *)
Definition reachable (s s' : State) : Prop := rtc step s s'.

(** The client right after [Dial], with [reqs] waiting on [inCh]. *)
Definition initial (n0 : Z) (w : World B) (reqs : list ethRequest) : State :=
  {| inCh := reqs; nonce := n0; tasks := []; world := w; trace := [] |}.

(** Readings of a trace. *)
Definition spawns (tr : list Effect) : list (Z * ethRequest) :=
  omap (fun e => match e with Go n req => Some (n, req) | _ => None end) tr.

Definition requeues (tr : list Effect) : list ethRequest :=
  omap (fun e => match e with Requeue req => Some req | _ => None end) tr.

Definition sends (tr : list Effect) : list (chan * Event) :=
  omap (fun e => match e with ChanSend out ev => Some (out, ev) | _ => None end) tr.

Definition submitted (tr : list Effect) : list Transaction :=
  omap (fun e => match e with CallSendTransaction tx => Some tx | _ => None end) tr.

Definition constructed (tr : list Effect) : list Transaction :=
  omap (fun e => match e with CallSignTx tx => Some tx | _ => None end) tr.

Definition outOfFundsCallbacks (tr : list Effect) : list Address :=
  omap (fun e => match e with CallWalletOutOfFunds a => Some a | _ => None end) tr.

Definition nonceCalls (tr : list Effect) : list Address :=
  omap (fun e => match e with CallPendingNonceAt a => Some a | _ => None end) tr.

(** The address [updateNonce] queries. *)
Definition nonceAddress : Address :=
  HexToAddress B (AddressHex B (walletAddress B)).

(** The effects of [executeTransaction]: calls to the node and to the
    signer, nothing else. *)
Definition isNodeCall (e : Effect) : Prop :=
  match e with
  | CallEstimateGas _ | CallSignTx _ | CallSendTransaction _
  | CallTransactionReceipt _ => True
  | _ => False
  end.

(** The state after [k] more calls of [PendingNonceAt] for [a] were
    recorded. *)
Definition logNonceCalls (a : Address) (k : nat) (s : State) : State :=
  {| inCh := inCh s; nonce := nonce s; tasks := tasks s; world := world s;
     trace := trace s ++ replicate k (CallPendingNonceAt a) |}.

(** Consecutive nonces from [n0] on, handed to the requests [reqs] in
    order. *)
Definition allocation (n0 : Z) (reqs : list ethRequest) : list (Z * ethRequest) :=
  imap (fun i r => (wrap64 (n0 + Z.of_nat i), r)) reqs.

(** The loop has served the first [k] of [reqs], in order, each with the
    next nonce. *)
Definition servedInOrder (n0 : Z) (reqs : list ethRequest) (k : nat) (s : State)
    : Prop :=
  (k <= length reqs)%nat
  /\ spawns (trace s) = allocation n0 (take k reqs)
  /\ inCh s = drop k reqs
  /\ nonce s = wrap64 (n0 + Z.of_nat k).

(** The two properties a strictly serial owner would have: at most one
    spawned transaction is waiting or running, and the transactions reach
    the node in the order of the nonces handed out to [reqs]. *)
Definition oneInFlight (s : State) : Prop := (length (tasks s) <= 1)%nat.

Definition submittedInOrder (n0 : Z) (reqs : list ethRequest) (s : State) : Prop :=
  map txNonce (submitted (trace s)) `prefix_of` map fst (allocation n0 reqs).

(** [k] calls of [PendingNonceAt] in a row fail, taking the node from [w]
    to [w']. *)
Inductive nonceFails (a : Address) : nat -> World B -> World B -> Prop :=
| nonceFails_O (w : World B) : nonceFails a O w w
| nonceFails_S (k : nat) (w w1 w2 : World B) (err : string) :
    PendingNonceAt B a w = (inr err, w1) ->
    nonceFails a k w1 w2 ->
    nonceFails a (S k) w w2.

(** [EventID()], the implementation of [rpc.Event] for the three events. *)
Definition EventID (ev : Event) : Z :=
  match ev with
  | service_ErrorEvent id _ | backend_ErrorEvent id _
  | backend_ExecuteServiceEvent id _ => id
  end.

(** The effects of [updateNonce]: queries of the pending nonce. *)
Definition isNonceCall (e : Effect) : Prop :=
  match e with
  | CallPendingNonceAt _ => True
  | _ => False
  end.

(** What a caller knows a request by: its reply channel and its id. *)
Definition reqKey (r : ethRequest) : chan * Z := (OutCh r, RequestID r).

(** The submissions a list of requests can still cause: ten minus the
    attempts made, for each of them. *)
Definition budget (rs : list ethRequest) : Z :=
  foldr (fun r acc => (10 - GetAttempts r) + acc) 0 rs.

(** The books of the client for the requests [reqs] it was given: every
    request waits on [inCh] with at most ten attempts, or is in a goroutine
    with fewer than ten, or has been answered; the answers went to the
    channel of a request of [reqs] with its id; and the submissions made
    plus those still possible stay within ten per request. *)
Definition accounted (reqs : list ethRequest) (s : State) : Prop :=
  Forall (fun r => 0 <= GetAttempts r <= 10 /\ reqKey r ∈ map reqKey reqs) (inCh s)
  /\ Forall (fun t => 0 <= GetAttempts (snd t) < 10
                      /\ reqKey (snd t) ∈ map reqKey reqs) (tasks s)
  /\ Forall (fun oe => (fst oe, EventID (snd oe)) ∈ map reqKey reqs)
       (sends (trace s))
  /\ (length (sends (trace s)) + length (inCh s) + length (tasks s)
      = length reqs)%nat
  /\ Z.of_nat (length (submitted (trace s))) + budget (inCh s)
       + budget (map snd (tasks s)) <= 10 * Z.of_nat (length reqs).

(** A sequence of nonces that never repeats a value nor goes back, short of
    the wrap-around of [uint64]: each is at least the one before plus one,
    modulo 2^64. *)
Definition neverBack (ns : list Z) : Prop :=
  forall (i : nat) (n m : Z),
    ns !! i = Some n -> ns !! S i = Some m -> wrap64 (n + 1) <= m.

End Client.

Arguments State : clear implicits.

End Eth.

(** ** auth/core: the authentication middleware *)

Module AuthCore.

Definition RequestHeaderSessionKey : string := "X-OASIS-SESSION-KEY".

(** [AuthData], stored in the context under [ContextAuthDataKey]. *)
Record AuthData : Type := {
  ExpectedAAD : string;
  SessionKey : string
}.

(** [rpc.HttpError] and [http.StatusForbidden] *)
Record HttpError : Type := {
  Cause : error;
  StatusCode : Z
}.

Definition StatusForbidden : Z := 403.

(** The [error] a middleware returns: an [*rpc.HttpError] or any other. *)
Inductive Err : Type :=
| errHttp (e : HttpError)
| errOther (msg : string).

Section Middleware.

(** The [interface{}] a handler answers with, the [Auth] plugin and the
    next middleware of [HttpMiddlewareAuth]. *)
Variable Response : Type.
Variable auth_Authenticate : Http.Request (option AuthData) -> string * error.
Variable next_ServeHTTP :
  Http.Request (option AuthData) -> option Response * option Err.

Definition forbidden : option Response * option Err :=
  (None, Some (errHttp {| Cause := None; StatusCode := StatusForbidden |})).

(** [func (m *HttpMiddlewareAuth) ServeHTTP(req) (interface{}, error)] *)
Definition ServeHTTP (req : Http.Request (option AuthData))
    : option Response * option Err :=
  let '(expectedAAD, err) := auth_Authenticate req in
  match err with
  | Some _ => forbidden
  | None =>
      let sessionKey := Http.HeaderGet req RequestHeaderSessionKey in
      if len sessionKey =? 0 then forbidden
      else
        let authData := {| ExpectedAAD := expectedAAD; SessionKey := sessionKey |} in
        next_ServeHTTP (Http.WithContext req (Some authData))
  end.

End Middleware.

End AuthCore.

(** ** backend/ekiden: the client of the ekiden runtime *)

Module Ekiden.

(** [encoding/hex]: [fromHexChar] and [DecodeString], which fails on an odd
    length and on any byte that is not a hexadecimal digit. *)
Definition fromHexChar (c : ascii) : option Z :=
  let n := Z.of_N (N_of_ascii c) in
  if (48 <=? n) && (n <=? 57) then Some (n - 48)
  else if (97 <=? n) && (n <=? 102) then Some (n - 97 + 10)
  else if (65 <=? n) && (n <=? 70) then Some (n - 65 + 10)
  else None.

Fixpoint DecodeString (s : string) : option (list Z) :=
  match s with
  | EmptyString => Some []
  | String _ EmptyString => None
  | String a (String b rest) =>
      match fromHexChar a, fromHexChar b with
      | Some hi, Some lo =>
          match DecodeString rest with
          | Some bytes => Some (Z.lor (Z.shiftl hi 4) lo :: bytes)
          | None => None
          end
      | _, _ => None
      end
  end.

(** An address [GetPublicKey] lets through: 40 hexadecimal digits. *)
Definition isHexDigit (c : ascii) : bool :=
  match fromHexChar c with
  | Some _ => true
  | None => false
  end.

Definition fortyHexDigits (s : string) : bool :=
  (String.length s =? 40)%nat && forallb isHexDigit (list_ascii_of_string s).

(** The error definitions of the gateway's [errors] package the client
    refers to, and [errors.New(kind, cause)]: the cause is nil, an error of
    [encoding/hex], or an error with a text. *)
Inductive ErrKind : Type :=
| ErrInvalidAddress
| ErrEkidenGetPublicKey
| ErrEkidenSignTx
| ErrEkidenEncodeRLPTx
| ErrEkidenSubmitTx
| ErrAPINotImplemented.

Inductive cause : Type :=
| causeHex
| causeText (msg : string).

Record Err : Type := {
  Kind : ErrKind;
  Cause : option cause
}.

(** The responses of backend/core. *)
Record GetPublicKeyResponse : Type := {
  Timestamp : Z;
  Address : string;
  PublicKey : string;
  Signature : string
}.

Record ExecuteServiceResponse : Type := {
  esID : Z;
  esAddress : string;
  esOutput : string
}.

Record DeployServiceResponse : Type := {
  dsID : Z;
  dsAddress : string
}.

Section Client.

(** The ekiden node (key manager and runtime) is a state machine [World];
    go-ethereum signs, encodes and parses addresses. *)
Variable World : Type.
Variable KeyManagerReply : Type.
Variable RuntimeReply : Type.
Variable keyManager_GetPublicKey :
  list Z -> World -> (KeyManagerReply + string) * World.
Variable runtime_EthereumTransaction :
  list Z -> list Z -> World -> (RuntimeReply + string) * World.
Variable SignTx : Eth.Transaction -> Eth.Transaction + string.
Variable EncodeRLP : Eth.Transaction -> list Z + string.
Variable HexToAddress : string -> Eth.Address.

(** [Client]: the runtime id; the key and the signer are in [SignTx]. *)
Record Client : Type := { runtimeID : list Z }.

(** [func (c *Client) GetPublicKey(ctx, req)] *)
Definition GetPublicKey (c : Client) (address : string) (w : World)
    : (GetPublicKeyResponse + Err) * World :=
  match DecodeString address with
  | None => (inr {| Kind := ErrInvalidAddress; Cause := Some causeHex |}, w)
  | Some decoded =>
      if negb (Z.of_nat (length decoded) =? 20)
      then (inr {| Kind := ErrInvalidAddress; Cause := None |}, w)
      else
        match keyManager_GetPublicKey decoded w with
        | (inr err, w') =>
            (inr {| Kind := ErrEkidenGetPublicKey; Cause := Some (causeText err) |}, w')
        | (inl _, w') =>
            (inl {| Timestamp := 0; Address := ""; PublicKey := "";
                    Signature := "" |}, w')
        end
  end.

(** [func (c *Client) createTx(address string, data string)] *)
Definition createTx (address data : string) : Eth.Transaction :=
  let gas := 1000000 in
  let gasPrice := 1000000000 in
  if len address =? 0
  then Eth.NewContractCreation 0 0 gas gasPrice data
  else Eth.NewTransaction 0 (HexToAddress address) 0 gas gasPrice data.

(** [func (c *Client) generateTx(tx) ([]byte, errors.Err)] *)
Definition generateTx (tx : Eth.Transaction) : list Z + Err :=
  match SignTx tx with
  | inr err => inr {| Kind := ErrEkidenSignTx; Cause := Some (causeText err) |}
  | inl signed =>
      match EncodeRLP signed with
      | inr err =>
          inr {| Kind := ErrEkidenEncodeRLPTx; Cause := Some (causeText err) |}
      | inl bytes => inl bytes
      end
  end.

(** [func (c *Client) submitTx(ctx, address, data string) errors.Err] *)
Definition submitTx (c : Client) (address data : string) (w : World)
    : option Err * World :=
  let tx := createTx address data in
  match generateTx tx with
  | inr err => (Some err, w)
  | inl p =>
      match runtime_EthereumTransaction (runtimeID c) p w with
      | (inr derr, w') =>
          (Some {| Kind := ErrEkidenSubmitTx; Cause := Some (causeText derr) |}, w')
      | (inl _, w') => (None, w')
      end
  end.

(** [func (c *Client) ExecuteService(ctx, id, req)] *)
Definition ExecuteService (c : Client) (id : Z) (req : Eth.ExecuteServiceRequest)
    (w : World) : (ExecuteServiceResponse + Err) * World :=
  match submitTx c (Eth.esAddress req) (Eth.esData req) w with
  | (Some err, w') => (inr err, w')
  | (None, w') =>
      (inl {| esID := id; esAddress := Eth.esAddress req; esOutput := "" |}, w')
  end.

(** [func (c *Client) DeployService(ctx, id, req)] *)
Definition DeployService (c : Client) (id : Z) (req : Eth.DeployServiceRequest)
    (w : World) : (DeployServiceResponse + Err) * World :=
  match submitTx c "" (Eth.dsData req) w with
  | (Some err, w') => (inr err, w')
  | (None, w') => (inl {| dsID := id; dsAddress := "" |}, w')
  end.

End Client.

End Ekiden.

(** * Sample instances

    Concrete collaborators on which the statements below are exercised. *)

(** A decoder for a window of three entries: an unset placeholder at offset
    5 followed by a set entry at offset 6 and another placeholder. *)
Definition sampleUnmarshalElement (blob : string) : Redis.redisElement + string :=
  if String.eqb blob "hole5" then
    inl {| Redis.Offset := 5; Redis.Type_ := ""; Redis.Value := ""; Redis.Set_ := false |}
  else if String.eqb blob "event6" then
    inl {| Redis.Offset := 6; Redis.Type_ := "ev"; Redis.Value := "q"; Redis.Set_ := true |}
  else if String.eqb blob "hole7" then
    inl {| Redis.Offset := 7; Redis.Type_ := ""; Redis.Value := ""; Redis.Set_ := false |}
  else inr "invalid character".

Definition sampleUnmarshalString (blob : string) : string + string :=
  if String.eqb blob "q" then inl "payload" else inr "invalid character".

(** A transport whose first dial succeeds (connection 0) and whose later
    dials fail. *)
Definition secondDialFails (w : nat) : (nat + string) * nat :=
  (if (w <? 1)%nat then inl w else inr "connection refused", S w).

(** A node driven by a script: [PendingNonceAt] and [SendTransaction] answer
    with the next entry of their list (and succeed once it is used up), gas
    estimation and receipts always succeed. The error text follows the
    gateway's format "[code] error code ... with desc ... with cause ...". *)
Record Script : Type := {
  nonceScript : list (Z + string);
  sendScript : list error
}.

Definition scriptedPendingNonceAt (a : Eth.Address) (w : Script)
    : (Z + string) * Script :=
  match nonceScript w with
  | [] => (inl 0, w)
  | r :: rest => (r, {| nonceScript := rest; sendScript := sendScript w |})
  end.

Definition scriptedSendTransaction (tx : Eth.Transaction) (w : Script)
    : error * Script :=
  match sendScript w with
  | [] => (None, w)
  | r :: rest => (r, {| nonceScript := nonceScript w; sendScript := rest |})
  end.

Definition scriptedSignTx (tx : Eth.Transaction) : Eth.Transaction + string :=
  inl {| Eth.txNonce := Eth.txNonce tx; Eth.txTo := Eth.txTo tx;
         Eth.txValue := Eth.txValue tx; Eth.txGas := Eth.txGas tx;
         Eth.txGasPrice := Eth.txGasPrice tx; Eth.txData := Eth.txData tx;
         Eth.txSignature := Some "frontier" |}.

Definition scriptedErrText (k : Eth.ErrKind) (cause : string) : string :=
  ("[1002] error code InternalError with desc Internal Error. Please check the status of the service. with cause "
   ++ cause)%string.

Definition scriptedBackend : Eth.Backend :=
  {| Eth.World := Script;
     Eth.PendingNonceAt := scriptedPendingNonceAt;
     Eth.EstimateGas := fun _ w => (inl 21000, w);
     Eth.SendTransaction := scriptedSendTransaction;
     Eth.TransactionReceipt := fun _ w =>
       (inl {| Eth.Status := 1; Eth.ContractAddress := "0xc0" |}, w);
     Eth.SignTx := scriptedSignTx;
     Eth.TxHash := fun _ => "Some hash";
     Eth.HexToAddress := fun a => a;
     Eth.AddressHex := fun a => a;
     Eth.walletAddress := "0x6f6704e5a10332af6672e50b3d9754dc460dfa4d";
     Eth.ErrDesc := fun _ => "Internal Error. Please check the status of the service.";
     Eth.ErrCode := fun _ => 1002;
     Eth.ErrText := scriptedErrText |}.

(** The texts of the node's two sentinel errors in the samples. *)
Definition sampleInvalidNonce : string := "invalid transaction nonce".

Definition sampleDeploy (id : Z) : Eth.ethRequest :=
  Eth.deployServiceRequest 0 (Z.to_nat id) id
    {| Eth.dsData := "0x00"; Eth.dsKey := "k" |}.

Definition sampleExecute (attempts id : Z) : Eth.ethRequest :=
  Eth.executeServiceRequest attempts (Z.to_nat id) id
    {| Eth.esData := "0x00";
       Eth.esAddress := "0x5d352cf2160f79CBF3554534cF25A4b42C43D502";
       Eth.esKey := "k" |}.

(** A node that answers every call successfully. *)
Definition calmNode : Script := {| nonceScript := []; sendScript := [] |}.

(** Two deploy requests waiting on [inCh] of a fresh client, the state
    after the loop has served both, and the state after the scheduler has
    then run the second goroutine before the first. *)
Definition twoDeploys : list Eth.ethRequest := [sampleDeploy 1; sampleDeploy 2].

Definition twoWaiting : Eth.State scriptedBackend :=
  Eth.initial (B:=scriptedBackend) 0 calmNode twoDeploys.

Definition twoSpawned : Eth.State scriptedBackend :=
  Eth.loopStep (Eth.loopStep twoWaiting).

Definition secondRanFirst : Eth.State scriptedBackend :=
  Eth.taskStep 0 (Eth.taskStep 1 twoSpawned).




(** A node that rejects the first submission for its nonce, and a node
    whose first nonce query times out before the second answers 8. *)
Definition staleNode : Script :=
  {| nonceScript := []; sendScript := [Some sampleInvalidNonce] |}.

Definition flakyNode : Script :=
  {| nonceScript := [inr "timeout"; inl 8]; sendScript := [] |}.

(** A serial schedule: [n] rounds in which the loop serves the head of
    [inCh] and the goroutine it started runs at once. *)
Definition serialRounds (n : nat) (s : Eth.State scriptedBackend)
    : Eth.State scriptedBackend :=
  Nat.iter n (fun s' => Eth.taskStep 0 (Eth.loopStep s')) s.

(** A node that rejects every one of the first ten submissions for its
    nonce. *)
Definition stubbornNode : Script :=
  {| nonceScript := []; sendScript := replicate 10 (Some sampleInvalidNonce) |}.

(** The scripted node, except that gas estimation always fails. *)
Definition gaslessBackend : Eth.Backend :=
  {| Eth.World := Script;
     Eth.PendingNonceAt := scriptedPendingNonceAt;
     Eth.EstimateGas := fun _ w => (inr "gas required exceeds allowance", w);
     Eth.SendTransaction := scriptedSendTransaction;
     Eth.TransactionReceipt := Eth.TransactionReceipt scriptedBackend;
     Eth.SignTx := scriptedSignTx;
     Eth.TxHash := Eth.TxHash scriptedBackend;
     Eth.HexToAddress := Eth.HexToAddress scriptedBackend;
     Eth.AddressHex := Eth.AddressHex scriptedBackend;
     Eth.walletAddress := Eth.walletAddress scriptedBackend;
     Eth.ErrDesc := Eth.ErrDesc scriptedBackend;
     Eth.ErrCode := Eth.ErrCode scriptedBackend;
     Eth.ErrText := scriptedErrText |}.

(** One execute request waiting on [inCh] of a client whose node cannot
    estimate gas, with the nonce counter at 4. *)
Definition gaslessWaiting : Eth.State gaslessBackend :=
  Eth.initial (B:=gaslessBackend) 4 calmNode [sampleExecute 0 1].

(** The unsigned and the signed transaction of [sampleExecute 0 1] at nonce
    3 on the scripted node. *)
Definition sampleTx : Eth.Transaction :=
  Eth.buildTx (B:=scriptedBackend) 3 "0x5d352cf2160f79CBF3554534cF25A4b42C43D502"
    21000 "0x00".

Definition sampleSignedTx : Eth.Transaction :=
  {| Eth.txNonce := 3;
     Eth.txTo := Some "0x5d352cf2160f79CBF3554534cF25A4b42C43D502";
     Eth.txValue := 0; Eth.txGas := 21000; Eth.txGasPrice := 1000000000;
     Eth.txData := "0x00"; Eth.txSignature := Some "frontier" |}.

(** A worker that only counts the offsets it has handed out. *)
Definition counterNewWorker (key : string) : Z := 0.
Definition counterInsert (el : Mem.Element) (w : Z) : error * Z := (None, w).
Definition counterRetrieve (offset count : Z) (w : Z) : Mem.Elements * Z :=
  ({| Mem.WindowOffset := offset; Mem.Items := [] |}, w).
Definition counterDiscard (offset : Z) (w : Z) : error * Z := (None, w).
Definition counterNext (w : Z) : Z * Z := (w, w + 1).

Definition counterServeRequest :=
  Mem.serveRequest Z counterNewWorker counterInsert counterRetrieve
    counterDiscard counterNext.

(** A request with both headers of the insecure setup, and a handler that
    answers with the expected AAD and the session key it finds. *)
Definition sampleRequest : Http.Request (option AuthCore.AuthData) :=
  {| Http.Header := {[ "X-OASIS-INSECURE-AUTH" := "alice";
                       "X-OASIS-SESSION-KEY" := "s3ss10n" ]};
     Http.Context := None |}.

Definition sampleHandler (req : Http.Request (option AuthCore.AuthData))
    : option string * option AuthCore.Err :=
  match Http.Context req with
  | Some d =>
      (Some (AuthCore.ExpectedAAD d ++ "/" ++ AuthCore.SessionKey d)%string, None)
  | None => (None, Some (AuthCore.errOther "no auth data"))
  end.

(** A verifier that accepts the token "good", whose claims are a verified
    e-mail, and a request carrying that token. *)
Definition sampleVerifier (raw : string) : string + string :=
  if String.eqb raw "good" then inl raw else inr "oidc: malformed jwt".

Definition sampleClaims (tok : string) : Oauth.OpenIDClaims + string :=
  inl {| Oauth.Email := "test@email.com"; Oauth.EmailVerified := true |}.

Definition sampleTokenRequest : Http.Request Oauth.Context :=
  {| Http.Header := {[ "X-ID-TOKEN" := "good" ]};
     Http.Context := {| Oauth.ctxAAD := None |} |}.

(** An ekiden runtime that accepts every transaction and counts them, and
    an encoder that writes the nonce and the length of the data. *)
Definition sampleRuntime (runtimeID data : list Z) (w : nat)
    : (unit + string) * nat :=
  (inl tt, S w).

Definition sampleEncodeRLP (tx : Eth.Transaction) : list Z + string :=
  inl [Eth.txNonce tx; len (Eth.txData tx)].

(** * Theorems *)

Lemma len_zero_iff (s : string) : len s = 0 <-> s = "".
Proof.
  unfold len. destruct s; simpl; split; intros H; try reflexivity; try lia.
  discriminate.
Qed.


(** ** auth/insecure *)

(** C9: for every non-empty [data] and any two expected AAD values,
    [InsecureAuth.Verify] returns nil in both runs; the result does not
    depend on [expectedAAD] at all, and every non-empty payload is
    accepted. *)
Theorem insecure_verify_ignores_aad (data aad1 aad2 : string) :
  data <> "" ->
  Insecure.Verify data aad1 = None /\ Insecure.Verify data aad2 = None.
Proof.
  intros Hne. unfold Insecure.Verify.
  destruct (Z.eqb_spec (len data) 0) as [H0|_]; [|done].
  apply len_zero_iff in H0. contradiction.
Qed.

Lemma insecure_verify_ignores_aad_witness :
  "payload" <> "" /\
  Insecure.Verify "payload" "alice" = None /\
  Insecure.Verify "payload" "mallory" = None.
Proof.
  split; [discriminate|].
  apply (insecure_verify_ignores_aad "payload" "alice" "mallory").
  discriminate.
Defined.

(** The result of [Insecure.Verify] is a function of [data] alone. *)
Lemma insecure_verify_noninterference (data aad1 aad2 : string) :
  Insecure.Verify data aad1 = Insecure.Verify data aad2.
Proof. reflexivity. Qed.

(** ** auth/oauth *)

(** C10: for every auth request whose [API] field is ["Deploy"],
    [GoogleOauth.Verify] returns an error, whatever the context holds and
    also when the request's AAD equals the expected AAD. *)
Theorem google_verify_rejects_deploy (ctx : Oauth.Context) (data : Oauth.AuthRequest) :
  Oauth.API data = "Deploy" ->
  Oauth.Verify ctx data =
    Oauth.Returns (Some "GoogleOauth cannot authorize a user to deploy a service").
Proof.
  intros HAPI. unfold Oauth.Verify. rewrite HAPI. reflexivity.
Qed.

Lemma google_verify_rejects_deploy_witness :
  Oauth.Verify
    {| Oauth.ctxAAD := Some "user@example.com" |}
    {| Oauth.API := "Deploy"; Oauth.AAD := "user@example.com" |} =
    Oauth.Returns (Some "GoogleOauth cannot authorize a user to deploy a service").
Proof.
  apply (google_verify_rejects_deploy
           {| Oauth.ctxAAD := Some "user@example.com" |}
           {| Oauth.API := "Deploy"; Oauth.AAD := "user@example.com" |}).
  reflexivity.
Defined.

(** ** mqueue/mem *)

Section MemServer.

Variable Worker : Type.
Variable NewWorker : string -> Worker.
Variable Worker_Insert : Mem.Element -> Worker -> error * Worker.
Variable Worker_Retrieve : Z -> Z -> Worker -> Mem.Elements * Worker.
Variable Worker_Discard : Z -> Worker -> error * Worker.
Variable Worker_Next : Worker -> Z * Worker.

Local Abbreviation discard := (Mem.discard Worker Worker_Discard).
Local Abbreviation Discard := (Mem.Discard Worker NewWorker Worker_Insert Worker_Retrieve Worker_Discard Worker_Next).

(** The handler does send an error for a key without a worker. *)
Lemma discard_unknown_key_sends_error (s : Mem.Server Worker) (key : string)
    (offset : Z) :
  Mem.workers Worker s !! key = None ->
  discard key offset s =
    (Mem.replyError (Some "attempt to discard queue that does not exist"), s).
Proof. intros Hk. unfold discard, Mem.discard. rewrite Hk. reflexivity. Qed.

(** The public method answers nil whatever the handler sent. *)
Lemma Discard_always_nil (s : Mem.Server Worker) (key : string) (offset : Z) :
  fst (Discard key offset s) = None.
Proof.
  unfold Discard, Mem.Discard.
  destruct (Mem.serveRequest _ _ _ _ _ _ _ _) as [r s']. reflexivity.
Qed.

(** C1 (as the code behaves): on a server whose map holds no worker for
    [key], the handler [discard] sends the error "attempt to discard queue
    that does not exist" on the reply channel, and the public [Discard]
    nevertheless returns nil to its caller, leaving the server as it was. *)
Theorem Discard_unknown_key_returns_nil (m : gmap string Worker) (key : string)
    (offset : Z) :
  discard key offset {| Mem.workers := delete key m |} =
    (Mem.replyError (Some "attempt to discard queue that does not exist"),
     {| Mem.workers := delete key m |})
  /\ Discard key offset {| Mem.workers := delete key m |} =
       (None, {| Mem.workers := delete key m |}).
Proof.
  assert (Hk : Mem.workers Worker {| Mem.workers := delete key m |} !! key = None)
    by apply lookup_delete_eq.
  split.
  - apply discard_unknown_key_sends_error, Hk.
  - unfold Discard, Mem.Discard, Mem.serveRequest, Mem.discard.
    rewrite Hk. reflexivity.
Qed.

End MemServer.

(** ** mqueue/redis *)

Section RedisRetrieve.

Variable unmarshalElement : string -> Redis.redisElement + string.
Variable unmarshalString : string -> string + string.

Local Abbreviation retrieveLoop := (Redis.retrieveLoop unmarshalElement unmarshalString).
Local Abbreviation retrieve := (Redis.retrieve unmarshalElement unmarshalString).
Local Abbreviation toElement := (Redis.toElement unmarshalString).
Local Abbreviation decodesTo := (Redis.decodesTo unmarshalElement).
Local Abbreviation setValuesDecode := (Redis.setValuesDecode unmarshalString).
Local Abbreviation windowOffset := (Redis.windowOffset).

Lemma retrieveLoop_spec (blobs : list string) (ds : list Redis.redisElement) :
  decodesTo blobs ds ->
  setValuesDecode ds ->
  forall res offsetSet offset,
    retrieveLoop blobs res offsetSet offset =
      inr {| Mem.WindowOffset := windowOffset offsetSet offset ds;
             Mem.Items := res ++ omap toElement (filter (fun d => Redis.Set_ d = true) ds) |}.
Proof.
  unfold decodesTo, setValuesDecode.
  induction 1 as [|blob d blobs ds Hd Hrest IH]; intros Hset res offsetSet offset.
  - simpl. rewrite app_nil_r. destruct offsetSet; reflexivity.
  - apply Forall_cons in Hset as [Hd_set Hset].
    cbn [retrieveLoop Redis.retrieveLoop]. rewrite Hd.
    destruct (Redis.Set_ d) eqn:Hs; cbn [negb].
    + destruct (Hd_set eq_refl) as [e He].
      unfold toElement, Redis.toElement in He.
      destruct (unmarshalString (Redis.Value d)) as [value|err] eqn:Hv; [|done].
      injection He as <-.
      fold retrieveLoop. rewrite (IH Hset).
      rewrite filter_cons_True by done.
      cbn [omap list_omap]. unfold toElement at 2, Redis.toElement. rewrite Hv.
      rewrite <- app_assoc. destruct offsetSet; reflexivity.
    + fold retrieveLoop. rewrite (IH Hset).
      rewrite filter_cons_False by (rewrite Hs; done).
      destruct offsetSet; reflexivity.
Qed.

(** Every element of the result stems from an entry that is set. *)
Lemma omap_toElement_set (ds : list Redis.redisElement) (e : Mem.Element) :
  e ∈ omap toElement (filter (fun d => Redis.Set_ d = true) ds) ->
  exists d, d ∈ ds /\ Redis.Set_ d = true /\ toElement d = Some e.
Proof.
  intros He. apply list_elem_of_omap in He as (d & Hd & Hde).
  apply list_elem_of_filter in Hd as [Hs Hd]. eauto.
Qed.

(** C8: when the retrieve script answers with a non-empty list of entries
    [d :: ds] (all of which decode), [MQueue.retrieve] returns a result;
    its elements are exactly the entries whose set flag is true, in order
    (every entry with a false flag is left out), and its window offset is
    the offset of the first entry [d], set or not. *)
Theorem retrieve_filters_unset_keeps_first_offset
    (blobs : list string) (d : Redis.redisElement) (ds : list Redis.redisElement) :
  decodesTo blobs (d :: ds) ->
  setValuesDecode (d :: ds) ->
  exists els,
    retrieve (inl blobs) = inr els
    /\ Mem.WindowOffset els = Redis.Offset d
    /\ Mem.Items els =
         omap toElement (filter (fun x => Redis.Set_ x = true) (d :: ds))
    /\ map Mem.Offset (Mem.Items els) =
         map Redis.Offset (filter (fun x => Redis.Set_ x = true) (d :: ds))
    /\ (forall e, e ∈ Mem.Items els ->
          exists x, x ∈ d :: ds /\ Redis.Set_ x = true /\ toElement x = Some e).
Proof.
  intros Hdec Hset.
  eexists. split.
  { unfold retrieve, Redis.retrieve. fold retrieveLoop.
    apply (retrieveLoop_spec _ _ Hdec Hset). }
  cbn [Mem.WindowOffset Mem.Items windowOffset app].
  split; [reflexivity|]. split; [reflexivity|]. split.
  - clear Hdec. unfold setValuesDecode in Hset.
    induction Hset as [|x xs Hx Hxs IH]; [reflexivity|].
    destruct (Redis.Set_ x) eqn:Hs.
    + rewrite filter_cons_True by done.
      destruct (Hx eq_refl) as [e He]. cbn [omap list_omap map]. rewrite He.
      cbn [map]. f_equal; [|exact IH].
      unfold toElement, Redis.toElement in He.
      destruct (unmarshalString (Redis.Value x)); [|done].
      injection He as <-. reflexivity.
    + rewrite filter_cons_False by (rewrite Hs; done). exact IH.
  - intros e He. apply omap_toElement_set, He.
Qed.

(** Conversely a blob that does not decode makes [retrieve] fail: the
    result above is the only successful outcome. *)
Lemma retrieveLoop_ok_decodes (blobs : list string) :
  forall res offsetSet offset els,
    retrieveLoop blobs res offsetSet offset = inr els ->
    exists ds, decodesTo blobs ds /\ setValuesDecode ds.
Proof.
  induction blobs as [|blob blobs IH]; intros res offsetSet offset els Hr.
  - exists []. split; constructor.
  - cbn [retrieveLoop Redis.retrieveLoop] in Hr.
    destruct (unmarshalElement blob) as [d|err] eqn:Hd; [|done].
    destruct (Redis.Set_ d) eqn:Hs; cbn [negb] in Hr.
    + destruct (unmarshalString (Redis.Value d)) as [value|err] eqn:Hv; [|done].
      apply IH in Hr as (ds & Hds & Hset).
      exists (d :: ds). split; constructor; try done.
      intros _. unfold toElement, Redis.toElement. rewrite Hv. eauto.
    + apply IH in Hr as (ds & Hds & Hset).
      exists (d :: ds). split; constructor; try done.
      rewrite Hs. done.
Qed.

End RedisRetrieve.

Lemma retrieve_filters_unset_keeps_first_offset_witness :
  exists els,
    Redis.retrieve sampleUnmarshalElement sampleUnmarshalString
      (inl ["hole5"; "event6"; "hole7"]) = inr els
    /\ Mem.WindowOffset els = 5
    /\ map Mem.Offset (Mem.Items els) = [6].
Proof.
  destruct (retrieve_filters_unset_keeps_first_offset
              sampleUnmarshalElement sampleUnmarshalString
              ["hole5"; "event6"; "hole7"]
              {| Redis.Offset := 5; Redis.Type_ := ""; Redis.Value := ""; Redis.Set_ := false |}
              [ {| Redis.Offset := 6; Redis.Type_ := "ev"; Redis.Value := "q"; Redis.Set_ := true |};
                {| Redis.Offset := 7; Redis.Type_ := ""; Redis.Value := ""; Redis.Set_ := false |} ])
    as (els & Hr & Hoff & _ & Hoffs & _).
  - repeat constructor.
  - repeat constructor; simpl; intros; try discriminate; eexists; reflexivity.
  - exists els. split; [exact Hr|]. split; [exact Hoff|].
    rewrite Hoffs. reflexivity.
Defined.

(** ** noise: the fixed connection pool *)

Section NoisePool.

Variable Conn : Type.
Variable World : Type.
Variable DialContext : World -> (Conn + string) * World.

Local Abbreviation dialConnection := (Noise.dialConnection Conn World DialContext).
Local Abbreviation dialAll := (Noise.dialAll Conn World DialContext).

(** No path of the pool's construction closes a connection. *)
Lemma dialAll_closes_nothing (n : nat) :
  forall p, Noise.closed _ _ (snd (dialAll n p)) = Noise.closed _ _ p.
Proof.
  induction n as [|n IH]; intros p; [reflexivity|].
  cbn [dialAll Noise.dialAll]. unfold Noise.dialConnection.
  destruct (DialContext (Noise.world _ _ p)) as [[conn|err] w]; cbn.
  - fold dialAll. rewrite IH. reflexivity.
  - reflexivity.
Qed.

(** Connections that were established stay in the pool's hands. *)
Lemma dialAll_keeps_loops (n : nat) :
  forall p, Noise.loops _ _ p `prefix_of` Noise.loops _ _ (snd (dialAll n p)).
Proof.
  induction n as [|n IH]; intros p; [reflexivity|].
  cbn [dialAll Noise.dialAll]. unfold Noise.dialConnection.
  destruct (DialContext (Noise.world _ _ p)) as [[conn|err] w]; cbn.
  - fold dialAll. etrans; [|apply IH]. cbn. by apply prefix_app_r.
  - reflexivity.
Qed.

End NoisePool.

(** C5 (as the code behaves): with [Conns = 2], a first dial that succeeds
    and a second one that fails, [DialFixedPool] returns the dial error and
    cancels its context, but connection 0, established before the failure,
    has not been closed when it returns. *)
Theorem DialFixedPool_leaves_connection_open :
  exists p,
    Noise.DialFixedPool nat nat secondDialFails 2 0%nat = (Some "connection refused", p)
    /\ Noise.cancelled _ _ p = true
    /\ 0%nat ∈ Noise.loops _ _ p
    /\ 0%nat ∉ Noise.closed _ _ p.
Proof.
  eexists. split; [reflexivity|]. cbn.
  split; [reflexivity|]. split; [apply list_elem_of_here|]. apply not_elem_of_nil.
Qed.

(** ** backend/eth *)

Section EthClient.

Context {B : Eth.Backend}.

Local Abbreviation State := (Eth.State B).

Lemma app_cons_assoc {A : Type} (l : list A) (x : A) (l' : list A) :
  (l ++ [x]) ++ l' = l ++ x :: l'.
Proof. rewrite <- app_assoc. reflexivity. Qed.

(** Closes one path of [executeTransaction]: the result and the final state
    are read off the goal, the trace is put in the form [trace s ++ ext]. *)
Ltac path_done :=
  do 3 eexists; split; [reflexivity|]; cbn; rewrite ?app_cons_assoc;
  repeat split; try reflexivity; [repeat constructor|].

(** What [executeTransaction] does, by the answers of the node. *)
Lemma executeTransaction_run (nonce id : Z) (address data : string) (s : State) :
  exists (r : Eth.Event + string) (s1 : State) (ext : list Eth.Effect),
    Eth.executeTransaction nonce id address data s = (r, s1)
    /\ Eth.trace s1 = Eth.trace s ++ ext
    /\ Forall Eth.isNodeCall ext
    /\ Eth.inCh s1 = Eth.inCh s
    /\ Eth.nonce s1 = Eth.nonce s
    /\ Eth.tasks s1 = Eth.tasks s
    /\ (forall text, r = inr text ->
          exists cause, text = Eth.ErrText B Eth.ErrSendTransaction cause).
Proof.
  unfold Eth.executeTransaction, Eth.estimateGas, Eth.bind, Eth.call, Eth.ret.
  destruct (Eth.EstimateGas B _ (Eth.world s)) as [[gas|e] w1]; cbn;
    [|path_done; discriminate].
  destruct (Eth.SignTx B _) as [tx|e]; cbn; [|path_done; discriminate].
  destruct (Eth.SendTransaction B tx w1) as [[cause|] w2]; cbn.
  { path_done. intros text [= <-]. eauto. }
  destruct (Eth.TransactionReceipt B _ w2) as [[receipt|e] w3]; cbn;
    [|path_done; discriminate].
  destruct (Eth.Status receipt =? 1); cbn; path_done; discriminate.
Qed.

Lemma fn_run (nonce : Z) (req : Eth.ethRequest) (s : State) :
  exists (r : Eth.Event + string) (s1 : State) (ext : list Eth.Effect),
    Eth.fn nonce req s = (r, s1)
    /\ Eth.trace s1 = Eth.trace s ++ ext
    /\ Forall Eth.isNodeCall ext
    /\ Eth.inCh s1 = Eth.inCh s
    /\ Eth.nonce s1 = Eth.nonce s
    /\ Eth.tasks s1 = Eth.tasks s
    /\ (forall text, r = inr text ->
          exists cause, text = Eth.ErrText B Eth.ErrSendTransaction cause).
Proof.
  destruct req; apply executeTransaction_run.
Qed.

(** Node calls are neither spawns, nor requeues, nor sends, nor callbacks,
    nor nonce queries. *)
Lemma nodeCalls_readings (ext : list Eth.Effect) :
  Forall Eth.isNodeCall ext ->
  Eth.spawns ext = [] /\ Eth.requeues ext = [] /\ Eth.sends ext = []
  /\ Eth.outOfFundsCallbacks ext = [] /\ Eth.nonceCalls ext = [].
Proof.
  induction 1 as [|e ext He _ IH]; [done|].
  destruct IH as (? & ? & ? & ? & ?).
  destruct e; try done; cbn; done.
Qed.

(** [fn] hands [executeTransaction] the request's address and data. *)
Lemma fn_executeTransaction (nonce : Z) (req : Eth.ethRequest) :
  Eth.fn nonce req =
    Eth.executeTransaction nonce (Eth.RequestID req) (Eth.reqAddress req)
      (Eth.reqData req).
Proof. destruct req; reflexivity. Qed.

(** C6: for every execute or deploy request whose gas estimation succeeds
    with [gas], so that the transaction is constructed, exactly one
    transaction is constructed and handed to the signer; its value is 0, its
    gas price 1000000000, its gas limit [gas], its nonce the allocated one
    and its data the request's; it is a contract creation exactly when the
    request's address is empty and a call to that address otherwise. *)
Theorem constructed_transaction_fields (nonce : Z) (req : Eth.ethRequest)
    (s : State) (gas : Z) (w : Eth.World B) :
  Eth.EstimateGas B (Eth.estimateMsg (Eth.reqAddress req) (Eth.reqData req))
    (Eth.world s) = (inl gas, w) ->
  exists tx,
    Eth.constructed (Eth.trace (snd (Eth.fn nonce req s))) =
      Eth.constructed (Eth.trace s) ++ [tx]
    /\ Eth.txValue tx = 0
    /\ Eth.txGasPrice tx = 1000000000
    /\ Eth.txGas tx = gas
    /\ Eth.txNonce tx = nonce
    /\ Eth.txData tx = Eth.reqData req
    /\ (Eth.isContractCreation tx = true <-> Eth.reqAddress req = "")
    /\ (Eth.reqAddress req <> "" ->
          Eth.txTo tx = Some (Eth.HexToAddress B (Eth.reqAddress req))).
Proof.
  intros Hgas. rewrite fn_executeTransaction.
  exists (Eth.buildTx nonce (Eth.reqAddress req) gas (Eth.reqData req)).
  split.
  - unfold Eth.executeTransaction, Eth.estimateGas, Eth.bind, Eth.call, Eth.ret.
    rewrite Hgas. cbn.
    destruct (Eth.SignTx B _) as [tx|e]; cbn.
    2: { unfold Eth.constructed. rewrite !omap_app. cbn. by rewrite app_nil_r. }
    destruct (Eth.SendTransaction B tx w) as [[cause|] w2]; cbn.
    { unfold Eth.constructed. rewrite !omap_app. cbn. by rewrite !app_nil_r. }
    destruct (Eth.TransactionReceipt B _ w2) as [[receipt|e] w3]; cbn.
    2: { unfold Eth.constructed. rewrite !omap_app. cbn. by rewrite !app_nil_r. }
    destruct (Eth.Status receipt =? 1); cbn;
      unfold Eth.constructed; rewrite !omap_app; cbn; by rewrite !app_nil_r.
  - unfold Eth.buildTx.
    destruct (Z.eqb_spec (len (Eth.reqAddress req)) 0) as [H0|Hn0]; cbn.
    + apply len_zero_iff in H0. repeat split; try reflexivity; try done.
    + repeat split; try reflexivity; try done.
      intros Hempty. apply len_zero_iff in Hempty. done.
Qed.

(** The only error [fn] returns is a failed submission. *)
Lemma fn_error_is_send_failure (n : Z) (req : Eth.ethRequest) (s s1 : State)
    (text : string) :
  Eth.fn n req s = (inr text, s1) ->
  exists cause, text = Eth.ErrText B Eth.ErrSendTransaction cause.
Proof.
  intros Hfn.
  destruct (fn_run n req s) as (r & s1' & ext & Hrun & _ & _ & _ & _ & _ & Herr).
  rewrite Hfn in Hrun. injection Hrun as <- <-. apply Herr. reflexivity.
Qed.

(** C2: when the submission of a request fails with an error whose text
    contains "nonce", the goroutine increments the request's attempts and
    puts it back at the tail of the owner's [inCh], sending nothing on its
    [Out] channel; and a request that arrives with ten or more attempts is
    answered with exactly one error event, the "failed to execute service"
    error, on its [Out] channel, without any further processing. *)
Theorem nonce_error_requeues_until_tenth_attempt
    (n : Z) (req : Eth.ethRequest) (s s1 : State) (text : string)
    (late : Eth.ethRequest) (s' : State) :
  Eth.fn n req s = (inr text, s1) ->
  Contains text "nonce" = true ->
  10 <= Eth.GetAttempts late ->
  (exists cause, text = Eth.ErrText B Eth.ErrSendTransaction cause)
  /\ Eth.transactionTask n req s =
       (tt, Eth.setInCh (Eth.inCh s ++ [Eth.IncAttempts req])
              (Eth.emit (Eth.Requeue (Eth.IncAttempts req)) s1))
  /\ Eth.GetAttempts (Eth.IncAttempts req) = wrap64 (Eth.GetAttempts req + 1)
  /\ Eth.sends (Eth.trace (snd (Eth.transactionTask n req s))) =
       Eth.sends (Eth.trace s)
  /\ Eth.request late s' =
       (tt, Eth.emit
              (Eth.ChanSend (Eth.OutCh late)
                 (Eth.service_ErrorEvent (Eth.RequestID late)
                    {| Eth.Description := "failed to execute service";
                       Eth.ErrorCode := -1 |})) s').
Proof.
  intros Hfn Hnonce Hlate.
  destruct (fn_run n req s) as (r & s1' & ext & Hrun & Htr & Hext & Hin & _ & _ & _).
  rewrite Hfn in Hrun. injection Hrun as <- <-.
  assert (Htask : Eth.transactionTask n req s =
            (tt, Eth.setInCh (Eth.inCh s ++ [Eth.IncAttempts req])
                   (Eth.emit (Eth.Requeue (Eth.IncAttempts req)) s1))).
  { unfold Eth.transactionTask, Eth.bind. rewrite Hfn, Hnonce.
    unfold Eth.push. cbn. rewrite Hin. reflexivity. }
  split; [eapply fn_error_is_send_failure, Hfn|].
  split; [exact Htask|].
  split; [destruct req; reflexivity|].
  split.
  - rewrite Htask. cbn. rewrite Htr. unfold Eth.sends. rewrite !omap_app.
    destruct (nodeCalls_readings ext Hext) as (_ & _ & Hs & _).
    unfold Eth.sends in Hs. rewrite Hs. cbn. by rewrite !app_nil_r.
  - unfold Eth.request, Eth.runTransaction.
    destruct (Z.leb_spec 10 (Eth.GetAttempts late)) as [_|Hlt]; [reflexivity|lia].
Qed.


(** [updateNonce] after [k] failed queries: it goes on with the iterations
    that are left. *)
Lemma updateNonceLoop_fails (k : nat) (w w1 : Eth.World B) :
  Eth.nonceFails Eth.nonceAddress k w w1 ->
  forall (left : nat) (s : State),
    Eth.world s = w ->
    (k <= left)%nat ->
    Eth.updateNonceLoop left s =
      Eth.updateNonceLoop (left - k)
        (Eth.logNonceCalls Eth.nonceAddress k (Eth.setWorld w1 s)).
Proof.
  induction 1 as [w|k w w1 w2 err Hcall _ IH]; intros left s Hw Hle.
  - rewrite Nat.sub_0_r. f_equal. subst w. destruct s.
    unfold Eth.logNonceCalls, Eth.setWorld. cbn. by rewrite app_nil_r.
  - destruct left as [|left]; [lia|].
    cbn [Eth.updateNonceLoop Nat.sub].
    unfold Eth.bind at 1. unfold Eth.Nonce, Eth.bind, Eth.call.
    fold (Eth.nonceAddress (B:=B)). rewrite Hw, Hcall. cbn [Eth.ret].
    rewrite IH by (reflexivity || lia).
    f_equal. unfold Eth.logNonceCalls, Eth.setWorld, Eth.emit. cbn.
    by rewrite <- app_assoc.
Qed.

Lemma updateNonce_succeeds (k : nat) (remote : Z) (w1 w2 : Eth.World B) (s : State) :
  (k < 10)%nat ->
  Eth.nonceFails Eth.nonceAddress k (Eth.world s) w1 ->
  Eth.PendingNonceAt B Eth.nonceAddress w1 = (inl remote, w2) ->
  Eth.updateNonce s =
    (None,
     Eth.setNonce (Z.max (Eth.nonce s) remote)
       (Eth.logNonceCalls Eth.nonceAddress (S k) (Eth.setWorld w2 s))).
Proof.
  intros Hk Hfails Hcall. unfold Eth.updateNonce.
  rewrite (updateNonceLoop_fails k _ _ Hfails 10%nat s eq_refl) by lia.
  destruct (10 - k)%nat as [|left] eqn:Hleft; [lia|].
  cbn [Eth.updateNonceLoop].
  unfold Eth.bind at 1. unfold Eth.Nonce, Eth.bind, Eth.call.
  fold (Eth.nonceAddress (B:=B)). cbn. rewrite Hcall. cbn.
  f_equal. destruct s as [q n ts w tr].
  unfold Eth.setNonce, Eth.logNonceCalls, Eth.setWorld, Eth.emit. cbn.
  rewrite <- app_assoc, <- replicate_cons_app.
  destruct (Z.ltb_spec n remote) as [Hlt|Hge]; cbn.
  - by rewrite Z.max_r by lia.
  - by rewrite Z.max_l by lia.
Qed.

Lemma updateNonce_gives_up (w1 : Eth.World B) (s : State) :
  Eth.nonceFails Eth.nonceAddress 10 (Eth.world s) w1 ->
  Eth.updateNonce s =
    (Some "exceeded attempts to update nonce",
     Eth.logNonceCalls Eth.nonceAddress 10 (Eth.setWorld w1 s)).
Proof.
  intros Hfails. unfold Eth.updateNonce.
  rewrite (updateNonceLoop_fails 10 _ _ Hfails 10%nat s eq_refl) by lia.
  reflexivity.
Qed.

(** Either one of the first ten queries succeeds or all ten fail. *)
Lemma nonce_queries_cases (w : Eth.World B) :
  (exists k remote w1 w2,
      (k < 10)%nat /\ Eth.nonceFails Eth.nonceAddress k w w1
      /\ Eth.PendingNonceAt B Eth.nonceAddress w1 = (inl remote, w2))
  \/ (exists w1, Eth.nonceFails Eth.nonceAddress 10 w w1).
Proof.
  assert (Hgen : forall (m : nat) (w : Eth.World B),
    (exists k remote w1 w2,
        (k < m)%nat /\ Eth.nonceFails Eth.nonceAddress k w w1
        /\ Eth.PendingNonceAt B Eth.nonceAddress w1 = (inl remote, w2))
    \/ (exists w1, Eth.nonceFails Eth.nonceAddress m w w1)).
  { clear w. induction m as [|m IH]; intros w.
    - right. exists w. constructor.
    - destruct (Eth.PendingNonceAt B Eth.nonceAddress w) as [[remote|err] w'] eqn:Hcall.
      + left. exists 0%nat, remote, w, w'. split; [lia|]. split; [constructor|done].
      + destruct (IH w') as [(k & remote & w1 & w2 & Hk & Hf & Hc)|[w1 Hf]].
        * left. exists (S k), remote, w1, w2. split; [lia|].
          split; [econstructor; eauto|done].
        * right. exists w1. econstructor; eauto. }
  apply Hgen.
Qed.

Lemma nonceCalls_app (l1 l2 : list Eth.Effect) :
  Eth.nonceCalls (l1 ++ l2) = Eth.nonceCalls l1 ++ Eth.nonceCalls l2.
Proof. apply omap_app. Qed.

Lemma nonceCalls_replicate (a : Eth.Address) (k : nat) :
  Eth.nonceCalls (replicate k (Eth.CallPendingNonceAt a)) = replicate k a.
Proof. induction k as [|k IH]; cbn; [reflexivity|]. f_equal. exact IH. Qed.

(** C7: for a request that comes back with attempts > 0, [runTransaction]
    first refreshes the nonce counter: it queries the node at most ten
    times, passing over every failed query; at the first answer [remote] the
    counter becomes max(local, remote), and that value is the nonce the
    request gets (the counter then moves one up); when all ten queries
    fail, the counter is left alone, nothing is spawned and the request is
    answered with the "failed to update nonce" error event. A request with
    ten or more attempts is answered before any refresh. *)
Theorem retry_refreshes_nonce_from_backend (req : Eth.ethRequest) (s : State) :
  0 < Eth.GetAttempts req ->
  (forall (k : nat) (remote : Z) (w1 w2 : Eth.World B),
      (k < 10)%nat ->
      Eth.nonceFails Eth.nonceAddress k (Eth.world s) w1 ->
      Eth.PendingNonceAt B Eth.nonceAddress w1 = (inl remote, w2) ->
      Eth.GetAttempts req < 10 ->
      let refreshed := Eth.logNonceCalls Eth.nonceAddress (S k) (Eth.setWorld w2 s) in
      let local := Z.max (Eth.nonce s) remote in
      Eth.request req s =
        (tt, Eth.emit (Eth.Go local req)
               (Eth.setTasks (Eth.tasks s ++ [(local, req)])
                  (Eth.setNonce (wrap64 (local + 1)) refreshed))))
  /\ (forall (w1 : Eth.World B),
        Eth.nonceFails Eth.nonceAddress 10 (Eth.world s) w1 ->
        Eth.GetAttempts req < 10 ->
        Eth.request req s =
          (tt, Eth.emit
                 (Eth.ChanSend (Eth.OutCh req)
                    (Eth.service_ErrorEvent (Eth.RequestID req)
                       {| Eth.Description := "failed to update nonce";
                          Eth.ErrorCode := -1 |}))
                 (Eth.logNonceCalls Eth.nonceAddress 10 (Eth.setWorld w1 s))))
  /\ (10 <= Eth.GetAttempts req ->
        Eth.request req s =
          (tt, Eth.emit
                 (Eth.ChanSend (Eth.OutCh req)
                    (Eth.service_ErrorEvent (Eth.RequestID req)
                       {| Eth.Description := "failed to execute service";
                          Eth.ErrorCode := -1 |})) s))
  /\ (length (Eth.nonceCalls (Eth.trace (snd (Eth.request req s))))
       <= length (Eth.nonceCalls (Eth.trace s)) + 10)%nat.
Proof.
  intros Hpos.
  assert (Hretry : Eth.GetAttempts req < 10 ->
            Eth.request req s =
              Eth.bind Eth.updateNonce
                (fun err =>
                   match err with
                   | Some _ =>
                       Eth.chanSend (Eth.OutCh req)
                         (Eth.service_ErrorEvent (Eth.RequestID req)
                            {| Eth.Description := "failed to update nonce";
                               Eth.ErrorCode := -1 |})
                   | None =>
                       fun s0 => Eth.spawn (Eth.nonce s0) req
                                   (Eth.setNonce (wrap64 (Eth.nonce s0 + 1)) s0)
                   end) s).
  { intros Hlt. unfold Eth.request, Eth.runTransaction.
    destruct (Z.leb_spec 10 (Eth.GetAttempts req)) as [?|_]; [lia|].
    destruct (Z.ltb_spec 0 (Eth.GetAttempts req)) as [_|?]; [reflexivity|lia]. }
  assert (Hlate : 10 <= Eth.GetAttempts req ->
            Eth.request req s =
              (tt, Eth.emit
                     (Eth.ChanSend (Eth.OutCh req)
                        (Eth.service_ErrorEvent (Eth.RequestID req)
                           {| Eth.Description := "failed to execute service";
                              Eth.ErrorCode := -1 |})) s)).
  { intros Hge. unfold Eth.request, Eth.runTransaction.
    destruct (Z.leb_spec 10 (Eth.GetAttempts req)) as [_|?]; [reflexivity|lia]. }
  assert (Hok : forall (k : nat) (remote : Z) (w1 w2 : Eth.World B),
            (k < 10)%nat ->
            Eth.nonceFails Eth.nonceAddress k (Eth.world s) w1 ->
            Eth.PendingNonceAt B Eth.nonceAddress w1 = (inl remote, w2) ->
            Eth.GetAttempts req < 10 ->
            Eth.request req s =
              (tt, Eth.emit (Eth.Go (Z.max (Eth.nonce s) remote) req)
                     (Eth.setTasks (Eth.tasks s ++ [(Z.max (Eth.nonce s) remote, req)])
                        (Eth.setNonce (wrap64 (Z.max (Eth.nonce s) remote + 1))
                           (Eth.logNonceCalls Eth.nonceAddress (S k)
                              (Eth.setWorld w2 s)))))).
  { intros k remote w1 w2 Hk Hfails Hcall Hlt.
    rewrite (Hretry Hlt). unfold Eth.bind.
    rewrite (updateNonce_succeeds k remote w1 w2 s Hk Hfails Hcall).
    reflexivity. }
  assert (Hko : forall w1 : Eth.World B,
            Eth.nonceFails Eth.nonceAddress 10 (Eth.world s) w1 ->
            Eth.GetAttempts req < 10 ->
            Eth.request req s =
              (tt, Eth.emit
                     (Eth.ChanSend (Eth.OutCh req)
                        (Eth.service_ErrorEvent (Eth.RequestID req)
                           {| Eth.Description := "failed to update nonce";
                              Eth.ErrorCode := -1 |}))
                     (Eth.logNonceCalls Eth.nonceAddress 10 (Eth.setWorld w1 s)))).
  { intros w1 Hfails Hlt.
    rewrite (Hretry Hlt). unfold Eth.bind.
    rewrite (updateNonce_gives_up w1 s Hfails). reflexivity. }
  split; [exact Hok|]. split; [exact Hko|]. split; [exact Hlate|].
  destruct (Z_le_gt_dec 10 (Eth.GetAttempts req)) as [Hge|Hlt%Z.gt_lt].
  - rewrite (Hlate Hge). cbn. unfold Eth.nonceCalls. rewrite omap_app. cbn.
    rewrite app_nil_r. lia.
  - destruct (nonce_queries_cases (Eth.world s))
      as [(k & remote & w1 & w2 & Hk & Hf & Hc)|[w1 Hf]].
    + rewrite (Hok k remote w1 w2 Hk Hf Hc Hlt).
      unfold Eth.emit, Eth.setTasks, Eth.setNonce, Eth.logNonceCalls, Eth.setWorld.
      cbn [snd Eth.trace].
      rewrite !nonceCalls_app, nonceCalls_replicate, !length_app, length_replicate.
      cbn. lia.
    + rewrite (Hko w1 Hf Hlt).
      unfold Eth.emit, Eth.logNonceCalls, Eth.setWorld.
      cbn [snd Eth.trace].
      rewrite !nonceCalls_app, nonceCalls_replicate, !length_app, length_replicate.
      cbn. lia.
Qed.

(** *** Scheduling *)

(** The public entry points enqueue requests that were never attempted, and
    [ExecuteService] turns an empty address down before anything is
    enqueued. *)
Lemma entry_points_enqueue_fresh_requests (out : Eth.chan) (id : Z)
    (dreq : Eth.DeployServiceRequest) (ereq : Eth.ExecuteServiceRequest)
    (s : State) :
  Eth.inCh (snd (Eth.DeployService out id dreq s)) =
    Eth.inCh s ++ [Eth.deployServiceRequest 0 out id dreq]
  /\ (Eth.esAddress ereq <> "" ->
        Eth.inCh (snd (Eth.ExecuteService out id ereq s)) =
          Eth.inCh s ++ [Eth.executeServiceRequest 0 out id ereq])
  /\ (Eth.esAddress ereq = "" ->
        Eth.ExecuteService out id ereq s =
          (Some (Eth.errorEvent id Eth.ErrInvalidAddress), s)).
Proof.
  split; [reflexivity|]. unfold Eth.ExecuteService. split.
  - intros Hne. destruct (Z.eqb_spec (len (Eth.esAddress ereq)) 0) as [H0|_].
    + apply len_zero_iff in H0. done.
    + reflexivity.
  - intros ->. reflexivity.
Qed.

Lemma updateNonceLoop_trace (left : nat) :
  forall s : State,
    exists ext, Eth.trace (snd (Eth.updateNonceLoop left s)) = Eth.trace s ++ ext
                /\ Eth.requeues ext = [].
Proof.
  induction left as [|left IH]; intros s.
  - exists []. cbn. by rewrite app_nil_r.
  - cbn [Eth.updateNonceLoop].
    unfold Eth.bind at 1. unfold Eth.Nonce, Eth.bind, Eth.call.
    destruct (Eth.PendingNonceAt B _ (Eth.world s)) as [[remote|err] w1]; cbn [Eth.ret].
    + eexists [_]. cbn. split.
      { destruct (_ <? _); reflexivity. }
      reflexivity.
    + destruct (IH (Eth.emit (Eth.CallPendingNonceAt
                                (Eth.HexToAddress B (Eth.AddressHex B (Eth.walletAddress B))))
                      (Eth.setWorld w1 s))) as (ext & Hext & Hrq).
      rewrite Hext. cbn. rewrite app_cons_assoc. eexists. split; [reflexivity|].
      cbn. exact Hrq.
Qed.

Lemma requeues_app (l1 l2 : list Eth.Effect) :
  Eth.requeues (l1 ++ l2) = Eth.requeues l1 ++ Eth.requeues l2.
Proof. apply omap_app. Qed.

Lemma spawns_app (l1 l2 : list Eth.Effect) :
  Eth.spawns (l1 ++ l2) = Eth.spawns l1 ++ Eth.spawns l2.
Proof. apply omap_app. Qed.

(** A request that was never retried gets the next nonce and a goroutine. *)
Lemma request_first_attempt (req : Eth.ethRequest) (s : State) :
  Eth.GetAttempts req = 0 ->
  Eth.request req s =
    (tt, Eth.emit (Eth.Go (Eth.nonce s) req)
           (Eth.setTasks (Eth.tasks s ++ [(Eth.nonce s, req)])
              (Eth.setNonce (wrap64 (Eth.nonce s + 1)) s))).
Proof.
  intros H0. unfold Eth.request, Eth.runTransaction. rewrite H0. reflexivity.
Qed.

(** The loop never takes back a [Requeue] it has recorded. *)
Lemma request_requeues (req : Eth.ethRequest) (s : State) :
  exists ext, Eth.trace (snd (Eth.request req s)) = Eth.trace s ++ ext.
Proof.
  unfold Eth.request, Eth.runTransaction.
  destruct (10 <=? Eth.GetAttempts req); [by eexists [_]|].
  unfold Eth.bind.
  destruct (0 <? Eth.GetAttempts req).
  - destruct (Eth.updateNonce s) as [err s1] eqn:Hup.
    destruct (updateNonceLoop_trace 10 s) as (ext & Hext & _).
    unfold Eth.updateNonce in Hup. rewrite Hup in Hext. cbn in Hext.
    destruct err; cbn; rewrite Hext, <- app_assoc; by eexists.
  - by eexists [_].
Qed.

Lemma transactionTask_trace (n : Z) (req : Eth.ethRequest) (s : State) :
  exists ext, Eth.trace (snd (Eth.transactionTask n req s)) = Eth.trace s ++ ext.
Proof.
  destruct (fn_run n req s) as (r & s1 & ext & Hrun & Htr & _).
  unfold Eth.transactionTask, Eth.bind. rewrite Hrun.
  destruct r as [ev|text]; [|destruct (Contains text "nonce")]; cbn;
    rewrite Htr, <- app_assoc; by eexists.
Qed.

Lemma step_trace (s s' : State) :
  Eth.step s s' -> exists ext, Eth.trace s' = Eth.trace s ++ ext.
Proof.
  intros [s0 req rest Hq|s0 before after n req Hts].
  - apply (request_requeues req (Eth.setInCh rest s0)).
  - apply (transactionTask_trace n req (Eth.setTasks (before ++ after) s0)).
Qed.

Lemma step_no_requeue_before (s s' : State) :
  Eth.step s s' -> Eth.requeues (Eth.trace s') = [] -> Eth.requeues (Eth.trace s) = [].
Proof.
  intros Hstep Hs'. destruct (step_trace s s' Hstep) as [ext Hext].
  rewrite Hext, requeues_app in Hs'. by apply app_eq_nil in Hs' as [? _].
Qed.

Lemma allocation_snoc (n0 : Z) (reqs : list Eth.ethRequest) (k : nat)
    (req : Eth.ethRequest) :
  reqs !! k = Some req ->
  Eth.allocation n0 (take (S k) reqs) =
    Eth.allocation n0 (take k reqs) ++ [(wrap64 (n0 + Z.of_nat k), req)].
Proof.
  intros Hk. unfold Eth.allocation.
  rewrite (take_S_r _ _ _ Hk), imap_app. cbn.
  rewrite length_take_le by (apply lookup_lt_Some in Hk; lia).
  by rewrite Nat.add_0_r.
Qed.

Lemma wrap64_succ (z : Z) : wrap64 (wrap64 z + 1) = wrap64 (z + 1).
Proof. unfold wrap64. apply Zplus_mod_idemp_l. Qed.

(** One move keeps the loop's bookkeeping in order, as long as the move is
    not a retry. *)
Lemma step_servedInOrder (n0 : Z) (reqs : list Eth.ethRequest) (k : nat)
    (s s' : State) :
  Forall (fun r => Eth.GetAttempts r = 0) reqs ->
  Eth.servedInOrder n0 reqs k s ->
  Eth.step s s' ->
  Eth.requeues (Eth.trace s') = [] ->
  exists k', Eth.servedInOrder n0 reqs k' s'.
Proof.
  intros Hfresh (Hk & Hsp & Hq & Hn) Hstep Hnr.
  destruct Hstep as [s req rest Hin|s before after n req Hts].
  - rewrite Hq in Hin.
    assert (Hreq : reqs !! k = Some req).
    { rewrite <- (Nat.add_0_r k), <- lookup_drop, Hin. reflexivity. }
    assert (H0 : Eth.GetAttempts req = 0).
    { eapply Forall_lookup_1 in Hfresh; eauto. }
    assert (Hrest : rest = drop (S k) reqs).
    { rewrite (drop_S _ _ _ Hreq) in Hin. by injection Hin as ->. }
    exists (S k). rewrite (request_first_attempt req _ H0). cbn.
    unfold Eth.servedInOrder. cbn.
    split; [apply lookup_lt_Some in Hreq; lia|].
    split; [|split; [exact Hrest|]].
    + rewrite spawns_app, Hsp, Hn, (allocation_snoc _ _ _ _ Hreq). reflexivity.
    + rewrite Hn, wrap64_succ. f_equal. lia.
  - exists k.
    destruct (fn_run n req (Eth.setTasks (before ++ after) s))
      as (r & s1 & ext & Hrun & Htr & Hext & Hin1 & Hn1 & _).
    destruct (nodeCalls_readings ext Hext) as (Hsp_ext & Hrq_ext & _).
    revert Hnr. unfold Eth.transactionTask, Eth.bind. rewrite Hrun.
    unfold Eth.servedInOrder.
    destruct r as [ev|text]; [|destruct (Contains text "nonce")]; cbn.
    + intros _. rewrite Htr, !spawns_app, Hsp_ext. cbn. rewrite !app_nil_r.
      rewrite Hin1, Hn1. cbn. done.
    + rewrite Htr, !requeues_app. cbn. intros Hnil.
      apply app_eq_nil in Hnil as [_ Hnil]. discriminate.
    + intros _. rewrite Htr, !spawns_app, Hsp_ext. cbn. rewrite !app_nil_r.
      rewrite Hin1, Hn1. cbn. done.
Qed.

(** C4 (amended): the owner's loop takes the requests from [inCh] one at a
    time and, as long as no request is retried, hands out consecutive nonces
    in the order the requests were enqueued: in every state the client
    reaches whose trace has no requeue, the goroutines started so far are
    those of the first [k] requests, in enqueue order, with nonces
    [n0, n0+1, ...] (modulo 2^64), and the rest of the requests is still
    waiting on [inCh]. *)
Theorem nonces_allocated_in_enqueue_order (n0 : Z) (w : Eth.World B)
    (reqs : list Eth.ethRequest) (s : State) :
  0 <= n0 < uint64_mod ->
  Forall (fun r => Eth.GetAttempts r = 0) reqs ->
  Eth.reachable (Eth.initial n0 w reqs) s ->
  Eth.requeues (Eth.trace s) = [] ->
  exists k, Eth.servedInOrder n0 reqs k s.
Proof.
  intros Hn0 Hfresh Hreach. unfold Eth.reachable in Hreach.
  revert s Hreach.
  apply (rtc_ind_r (fun s => Eth.requeues (Eth.trace s) = [] ->
                             exists k, Eth.servedInOrder n0 reqs k s)).
  - intros Hnr. exists 0%nat. unfold Eth.servedInOrder. cbn.
    split; [lia|]. split; [by rewrite take_0|]. split; [by rewrite drop_0|].
    unfold wrap64. rewrite Z.add_0_r, Z.mod_small; [reflexivity|exact Hn0].
  - intros s1 s2 Hreach Hstep IH Hnr.
    destruct (IH (step_no_requeue_before _ _ Hstep Hnr)) as [k Hk].
    eapply step_servedInOrder; eauto.
Qed.

Lemma loopStep_step (s : State) :
  Eth.inCh s <> [] -> Eth.step s (Eth.loopStep s).
Proof.
  intros Hne. unfold Eth.loopStep.
  destruct (Eth.inCh s) as [|req rest] eqn:Hq; [done|].
  by apply Eth.step_loop.
Qed.

Lemma taskStep_step (i : nat) (s : State) :
  is_Some (Eth.tasks s !! i) -> Eth.step s (Eth.taskStep i s).
Proof.
  intros [[n req] Hi]. unfold Eth.taskStep. rewrite Hi.
  apply Eth.step_task. symmetry. by apply take_drop_middle.
Qed.

End EthClient.

(** C6 on a deploy request that is given nonce 7. *)
Lemma constructed_transaction_fields_witness :
  exists tx,
    Eth.constructed
      (Eth.trace (snd (Eth.fn 7 (sampleDeploy 1) (Eth.initial (B:=scriptedBackend) 7 calmNode [])))) = [tx]
    /\ Eth.txValue tx = 0
    /\ Eth.txGasPrice tx = 1000000000
    /\ Eth.txGas tx = 21000
    /\ Eth.isContractCreation tx = true.
Proof.
  destruct (@constructed_transaction_fields scriptedBackend 7 (sampleDeploy 1)
              (Eth.initial (B:=scriptedBackend) 7 calmNode []) 21000 calmNode eq_refl)
    as (tx & Hc & Hv & Hp & Hg & _ & _ & Hcc & _).
  exists tx. split; [exact Hc|]. split; [exact Hv|]. split; [exact Hp|].
  split; [exact Hg|]. apply Hcc. reflexivity.
Defined.

(** C2 on an execute request whose first submission the node rejects for
    its nonce, and on a request that arrives with ten attempts. *)
Lemma nonce_error_requeues_until_tenth_attempt_witness :
  Eth.inCh (snd (Eth.transactionTask 0 (sampleExecute 0 1)
                   (Eth.initial (B:=scriptedBackend) 1 staleNode []))) = [sampleExecute 1 1]
  /\ Eth.sends (Eth.trace (snd (Eth.request (sampleExecute 10 2)
                                  (Eth.initial (B:=scriptedBackend) 1 staleNode [])))) =
       [(2%nat, Eth.service_ErrorEvent 2
                  {| Eth.Description := "failed to execute service";
                     Eth.ErrorCode := -1 |})].
Proof.
  destruct (@nonce_error_requeues_until_tenth_attempt scriptedBackend
              0 (sampleExecute 0 1) (Eth.initial (B:=scriptedBackend) 1 staleNode [])
              (snd (Eth.fn 0 (sampleExecute 0 1) (Eth.initial (B:=scriptedBackend) 1 staleNode [])))
              (scriptedErrText Eth.ErrSendTransaction sampleInvalidNonce)
              (sampleExecute 10 2) (Eth.initial (B:=scriptedBackend) 1 staleNode [])
              eq_refl eq_refl)
    as (_ & Htask & _ & _ & Hlate).
  - vm_compute. discriminate.
  - rewrite Htask, Hlate. split; reflexivity.
Defined.



(** C7 on a retried request: local counter 3, the first query times out,
    the second answers 8; the request gets nonce 8 and the counter moves to
    9. *)
Lemma retry_refreshes_nonce_from_backend_witness :
  Eth.nonce (snd (Eth.request (sampleExecute 1 1)
                    (Eth.initial (B:=scriptedBackend) 3 flakyNode []))) = 9
  /\ Eth.tasks (snd (Eth.request (sampleExecute 1 1)
                       (Eth.initial (B:=scriptedBackend) 3 flakyNode []))) =
       [(8, sampleExecute 1 1)]
  /\ length (Eth.nonceCalls
               (Eth.trace (snd (Eth.request (sampleExecute 1 1)
                                  (Eth.initial (B:=scriptedBackend) 3 flakyNode [])))))
     = 2%nat.
Proof.
  destruct (@retry_refreshes_nonce_from_backend scriptedBackend
              (sampleExecute 1 1) (Eth.initial (B:=scriptedBackend) 3 flakyNode [])
              eq_refl)
    as (Hok & _).
  rewrite (Hok 1%nat 8 {| nonceScript := [inl 8]; sendScript := [] |} calmNode).
  - repeat split; reflexivity.
  - lia.
  - econstructor; [reflexivity|constructor].
  - reflexivity.
  - reflexivity.
Defined.

(** C4 as stated fails: after the loop has served two deploy requests, two
    transactions of the wallet are in flight at once; and when the
    scheduler runs the second goroutine first, nonce 1 is submitted before
    nonce 0, although no request was retried. *)
Lemma two_transactions_in_flight :
  (Eth.reachable twoWaiting twoSpawned
   /\ Eth.requeues (Eth.trace twoSpawned) = []
   /\ ~ Eth.oneInFlight twoSpawned)
  /\ (Eth.reachable twoWaiting secondRanFirst
      /\ Eth.requeues (Eth.trace secondRanFirst) = []
      /\ map Eth.txNonce (Eth.submitted (Eth.trace secondRanFirst)) = [1; 0]
      /\ ~ Eth.submittedInOrder 0 twoDeploys secondRanFirst).
Proof.
  assert (Hreach : Eth.reachable twoWaiting twoSpawned).
  { unfold twoSpawned.
    eapply rtc_l; [apply (loopStep_step twoWaiting); vm_compute; discriminate|].
    eapply rtc_l; [apply (loopStep_step (Eth.loopStep twoWaiting));
                   vm_compute; discriminate|].
    apply rtc_refl. }
  split; [split; [exact Hreach|split]|split; [|split; [|split]]].
  - vm_compute. reflexivity.
  - unfold Eth.oneInFlight. intros Hle. vm_compute in Hle. lia.
  - unfold Eth.reachable. etrans; [exact Hreach|]. unfold secondRanFirst.
    eapply rtc_l; [apply (taskStep_step 1 twoSpawned); vm_compute; eauto|].
    eapply rtc_l; [apply (taskStep_step 0 (Eth.taskStep 1 twoSpawned));
                   vm_compute; eauto|].
    apply rtc_refl.
  - vm_compute. reflexivity.
  - vm_compute. reflexivity.
  - unfold Eth.submittedInOrder. intros [rest Hrest].
    vm_compute in Hrest. discriminate.
Qed.

(** C4 (amended) on the two deploy requests, once both were served. *)
Lemma nonces_allocated_in_enqueue_order_witness :
  exists k, Eth.servedInOrder 0 twoDeploys k twoSpawned.
Proof.
  apply (@nonces_allocated_in_enqueue_order scriptedBackend 0 calmNode
           twoDeploys twoSpawned).
  - unfold uint64_mod. lia.
  - repeat constructor.
  - unfold twoSpawned.
    eapply rtc_l; [apply (loopStep_step twoWaiting); vm_compute; discriminate|].
    eapply rtc_l; [apply (loopStep_step (Eth.loopStep twoWaiting));
                   vm_compute; discriminate|].
    apply rtc_refl.
  - vm_compute. reflexivity.
Defined.

(** *** Two runs of the whole client *)

(** The node rejects nonce 0 once: the request is submitted twice, comes
    back with one attempt and ends with the success event. *)
Example nonce_retry_then_success :
  let s := serialRounds 2 (Eth.initial (B:=scriptedBackend) 0 staleNode [sampleExecute 0 1]) in
  length (Eth.submitted (Eth.trace s)) = 2%nat
  /\ Eth.requeues (Eth.trace s) = [sampleExecute 1 1]
  /\ Eth.sends (Eth.trace s) = [(1%nat, Eth.backend_ExecuteServiceEvent 1 "0xc0")]
  /\ Eth.inCh s = [] /\ Eth.tasks s = [].
Proof. vm_compute. repeat split; reflexivity. Qed.

(** The node rejects every submission for its nonce: after ten submissions
    the request arrives for the eleventh time and is answered with the
    "failed to execute service" error, once. *)
Example nonce_retry_gives_up_after_ten_submissions :
  let s := Eth.loopStep
             (serialRounds 10
                (Eth.initial (B:=scriptedBackend) 0 stubbornNode [sampleExecute 0 1])) in
  length (Eth.submitted (Eth.trace s)) = 10%nat
  /\ map Eth.GetAttempts (Eth.requeues (Eth.trace s)) = [1; 2; 3; 4; 5; 6; 7; 8; 9; 10]
  /\ Eth.sends (Eth.trace s) =
       [(1%nat, Eth.service_ErrorEvent 1
                  {| Eth.Description := "failed to execute service";
                     Eth.ErrorCode := -1 |})]
  /\ Eth.inCh s = [] /\ Eth.tasks s = [].
Proof. vm_compute. repeat split; reflexivity. Qed.

(** * Further properties of the code *)

(** ** backend/eth: the books of the client *)

Section EthAccounting.

Context {B : Eth.Backend}.

Local Abbreviation State := (Eth.State B).

Lemma sends_app (l1 l2 : list Eth.Effect) :
  Eth.sends (l1 ++ l2) = Eth.sends l1 ++ Eth.sends l2.
Proof. apply omap_app. Qed.

Lemma submitted_app (l1 l2 : list Eth.Effect) :
  Eth.submitted (l1 ++ l2) = Eth.submitted l1 ++ Eth.submitted l2.
Proof. apply omap_app. Qed.

Lemma constructed_app (l1 l2 : list Eth.Effect) :
  Eth.constructed (l1 ++ l2) = Eth.constructed l1 ++ Eth.constructed l2.
Proof. apply omap_app. Qed.

Lemma nonceCall_readings (ext : list Eth.Effect) :
  Forall Eth.isNonceCall ext ->
  Eth.spawns ext = [] /\ Eth.requeues ext = [] /\ Eth.sends ext = []
  /\ Eth.submitted ext = [] /\ Eth.constructed ext = [].
Proof.
  induction 1 as [|e ext He _ IH]; [done|].
  destruct IH as (? & ? & ? & ? & ?).
  destruct e; try done; cbn; done.
Qed.

(** Reads the effects of a run off its trace. *)
Ltac read_trace :=
  unfold Eth.spawns, Eth.requeues, Eth.sends, Eth.submitted, Eth.constructed;
  cbn; rewrite ?omap_app; cbn; rewrite ?app_nil_r, <- ?app_assoc.

(** Closes one path of [executeTransaction] in [executeTransaction_outcome]. *)
Ltac outcome_done :=
  do 3 eexists; split; [reflexivity|]; cbn; rewrite ?app_cons_assoc;
  split; [reflexivity|]; split; [repeat constructor|];
  cbn; repeat split; try reflexivity; try lia; try discriminate.

(** What one run of [executeTransaction] leaves behind: calls to the node
    only, at most one submission, an event with the id it was given or the
    error of the one submission it made. *)
Lemma executeTransaction_outcome (nonce id : Z) (address data : string) (s : State) :
  exists (r : Eth.Event + string) (s1 : State) (ext : list Eth.Effect),
    Eth.executeTransaction nonce id address data s = (r, s1)
    /\ Eth.trace s1 = Eth.trace s ++ ext
    /\ Forall Eth.isNodeCall ext
    /\ Eth.inCh s1 = Eth.inCh s
    /\ Eth.nonce s1 = Eth.nonce s
    /\ Eth.tasks s1 = Eth.tasks s
    /\ (length (Eth.submitted ext) <= 1)%nat
    /\ (forall ev, r = inl ev -> Eth.EventID ev = id)
    /\ (forall text, r = inr text -> length (Eth.submitted ext) = 1%nat).
Proof.
  unfold Eth.executeTransaction, Eth.estimateGas, Eth.bind, Eth.call, Eth.ret.
  destruct (Eth.EstimateGas B _ (Eth.world s)) as [[gas|e] w1]; cbn.
  2: { outcome_done. by intros ev [= <-]. }
  destruct (Eth.SignTx B _) as [tx|e]; cbn.
  2: { outcome_done. by intros ev [= <-]. }
  destruct (Eth.SendTransaction B tx w1) as [[cause|] w2]; cbn.
  { outcome_done. }
  destruct (Eth.TransactionReceipt B _ w2) as [[receipt|e] w3]; cbn.
  2: { outcome_done. by intros ev [= <-]. }
  destruct (Eth.Status receipt =? 1); cbn; outcome_done; by intros ev [= <-].
Qed.

Lemma fn_outcome (n : Z) (req : Eth.ethRequest) (s : State) :
  exists (r : Eth.Event + string) (s1 : State) (ext : list Eth.Effect),
    Eth.fn n req s = (r, s1)
    /\ Eth.trace s1 = Eth.trace s ++ ext
    /\ Forall Eth.isNodeCall ext
    /\ Eth.inCh s1 = Eth.inCh s
    /\ Eth.nonce s1 = Eth.nonce s
    /\ Eth.tasks s1 = Eth.tasks s
    /\ (length (Eth.submitted ext) <= 1)%nat
    /\ (forall ev, r = inl ev -> Eth.EventID ev = Eth.RequestID req)
    /\ (forall text, r = inr text -> length (Eth.submitted ext) = 1%nat).
Proof. rewrite fn_executeTransaction. apply executeTransaction_outcome. Qed.

(** How a goroutine ends: with one event for its request, or with the
    request back on [inCh] after a submission. *)
Lemma transactionTask_outcome (n : Z) (req : Eth.ethRequest) (s : State) :
  exists (s1 : State) (sub : list Eth.Transaction),
    Eth.transactionTask n req s = (tt, s1)
    /\ Eth.tasks s1 = Eth.tasks s
    /\ Eth.nonce s1 = Eth.nonce s
    /\ Eth.submitted (Eth.trace s1) = Eth.submitted (Eth.trace s) ++ sub
    /\ (length sub <= 1)%nat
    /\ ((Eth.inCh s1 = Eth.inCh s
         /\ Eth.requeues (Eth.trace s1) = Eth.requeues (Eth.trace s)
         /\ exists ev, Eth.sends (Eth.trace s1) =
                         Eth.sends (Eth.trace s) ++ [(Eth.OutCh req, ev)]
                       /\ Eth.EventID ev = Eth.RequestID req)
        \/ (Eth.inCh s1 = Eth.inCh s ++ [Eth.IncAttempts req]
            /\ Eth.requeues (Eth.trace s1) =
                 Eth.requeues (Eth.trace s) ++ [Eth.IncAttempts req]
            /\ Eth.sends (Eth.trace s1) = Eth.sends (Eth.trace s)
            /\ length sub = 1%nat)).
Proof.
  destruct (fn_outcome n req s)
    as (r & s1 & ext & Hrun & Htr & Hext & Hin & Hn & Hts & Hsub & Hev & Herr).
  destruct (nodeCalls_readings ext Hext) as (_ & Hrq & Hs & _).
  unfold Eth.transactionTask, Eth.bind. rewrite Hrun.
  destruct r as [ev|text]; [|destruct (Contains text "nonce")]; cbn;
    eexists _, (Eth.submitted ext); (split; [reflexivity|]); cbn;
    rewrite Htr, ?sends_app, ?requeues_app, ?submitted_app, Hs, Hrq; cbn;
    rewrite ?app_nil_r.
  - do 4 (split; [done|]). left. do 2 (split; [done|]).
    exists ev. split; [done|]. by apply Hev.
  - split; [done|]. split; [done|]. split; [done|]. split; [done|].
    right. rewrite Hin. split; [done|]. split; [done|]. split; [done|].
    by apply (Herr text).
  - do 4 (split; [done|]). left. do 2 (split; [done|]). by eexists.
Qed.

(** What [updateNonce] leaves behind: at most [left] queries, a counter that
    did not go down, the same queue and goroutines. *)
Lemma updateNonceLoop_run (left : nat) :
  forall s : State,
    exists (err : error) (s1 : State) (ext : list Eth.Effect),
      Eth.updateNonceLoop left s = (err, s1)
      /\ Eth.trace s1 = Eth.trace s ++ ext
      /\ Forall Eth.isNonceCall ext
      /\ (length ext <= left)%nat
      /\ Eth.inCh s1 = Eth.inCh s
      /\ Eth.tasks s1 = Eth.tasks s
      /\ Eth.nonce s <= Eth.nonce s1
      /\ (err <> None -> Eth.nonce s1 = Eth.nonce s /\ length ext = left).
Proof.
  induction left as [|left IH]; intros s.
  - exists (Some "exceeded attempts to update nonce"), s, []. cbn.
    rewrite app_nil_r. repeat split; done.
  - cbn [Eth.updateNonceLoop].
    unfold Eth.bind at 1. unfold Eth.Nonce, Eth.bind, Eth.call.
    destruct (Eth.PendingNonceAt B _ (Eth.world s)) as [[remote|e] w1]; cbn [Eth.ret].
    + cbn. destruct (Z.ltb_spec (Eth.nonce s) remote);
        (eexists None, _, [_]; split; [reflexivity|]); cbn;
        repeat split; try done; try lia; repeat constructor.
    + destruct (IH (Eth.emit (Eth.CallPendingNonceAt
                                (Eth.HexToAddress B (Eth.AddressHex B (Eth.walletAddress B))))
                      (Eth.setWorld w1 s)))
        as (err & s1 & ext & Hrun & Htr & Hext & Hlen & Hin & Hts & Hn & Herr).
      exists err, s1, (Eth.CallPendingNonceAt
                         (Eth.HexToAddress B (Eth.AddressHex B (Eth.walletAddress B))) :: ext).
      split; [exact Hrun|]. cbn in *. rewrite Htr, app_cons_assoc.
      repeat split; try done; try lia.
      * constructor; done.
      * by apply Herr.
      * f_equal. by apply Herr.
Qed.

(** How the loop serves a request: it answers it at once, or it starts a
    goroutine for it; nothing is submitted on the way. *)
Lemma request_outcome (req : Eth.ethRequest) (s : State) :
  exists s1 : State,
    Eth.request req s = (tt, s1)
    /\ Eth.inCh s1 = Eth.inCh s
    /\ Eth.submitted (Eth.trace s1) = Eth.submitted (Eth.trace s)
    /\ ((Eth.tasks s1 = Eth.tasks s
         /\ exists ev, Eth.sends (Eth.trace s1) =
                         Eth.sends (Eth.trace s) ++ [(Eth.OutCh req, ev)]
                       /\ Eth.EventID ev = Eth.RequestID req)
        \/ (Eth.GetAttempts req < 10
            /\ Eth.sends (Eth.trace s1) = Eth.sends (Eth.trace s)
            /\ exists n, Eth.tasks s1 = Eth.tasks s ++ [(n, req)])).
Proof.
  unfold Eth.request, Eth.runTransaction.
  destruct (Z.leb_spec 10 (Eth.GetAttempts req)) as [Hge|Hlt].
  { eexists. split; [reflexivity|]. cbn. rewrite sends_app, submitted_app. cbn.
    rewrite app_nil_r. repeat split; try done. left. split; [done|]. eauto. }
  unfold Eth.bind.
  assert (Hup : exists (err : error) (s1 : State) (ext : list Eth.Effect),
            (if 0 <? Eth.GetAttempts req then Eth.updateNonce else Eth.ret None) s
              = (err, s1)
            /\ Eth.trace s1 = Eth.trace s ++ ext
            /\ Forall Eth.isNonceCall ext
            /\ Eth.inCh s1 = Eth.inCh s
            /\ Eth.tasks s1 = Eth.tasks s).
  { destruct (0 <? Eth.GetAttempts req).
    - destruct (updateNonceLoop_run 10 s)
        as (err & s1 & ext & Hrun & Htr & Hext & _ & Hin & Hts & _).
      exists err, s1, ext. done.
    - exists None, s, []. cbn. rewrite app_nil_r. done. }
  destruct Hup as (err & s1 & ext & Hrun & Htr & Hext & Hin & Hts).
  destruct (nonceCall_readings ext Hext) as (_ & _ & Hs & Hsub & _).
  rewrite Hrun.
  destruct err as [e|]; cbn; (eexists; split; [reflexivity|]); cbn;
    rewrite Htr, !sends_app, !submitted_app, Hs, Hsub; cbn; rewrite ?app_nil_r.
  - repeat split; try done. left. split; [done|]. eauto.
  - repeat split; try done. right. rewrite Hts. repeat split; try done. eauto.
Qed.

Lemma budget_app (l1 l2 : list Eth.ethRequest) :
  Eth.budget (l1 ++ l2) = Eth.budget l1 + Eth.budget l2.
Proof.
  induction l1 as [|r l1 IH]; [reflexivity|].
  change (Eth.budget ((r :: l1) ++ l2))
    with ((10 - Eth.GetAttempts r) + Eth.budget (l1 ++ l2)).
  change (Eth.budget (r :: l1)) with ((10 - Eth.GetAttempts r) + Eth.budget l1).
  rewrite IH. lia.
Qed.

Lemma IncAttempts_small (req : Eth.ethRequest) :
  0 <= Eth.GetAttempts req < 10 ->
  Eth.GetAttempts (Eth.IncAttempts req) = Eth.GetAttempts req + 1
  /\ Eth.reqKey (Eth.IncAttempts req) = Eth.reqKey req.
Proof.
  intros Ha. destruct req; cbn in *; (split; [|reflexivity]);
    unfold wrap64, uint64_mod; apply Z.mod_small; lia.
Qed.

Lemma budget_cons (r : Eth.ethRequest) (l : list Eth.ethRequest) :
  Eth.budget (r :: l) = (10 - Eth.GetAttempts r) + Eth.budget l.
Proof. reflexivity. Qed.

Lemma budget_nil : Eth.budget [] = 0.
Proof. reflexivity. Qed.

(** No move of the client upsets its books. *)
Lemma step_accounted (reqs : list Eth.ethRequest) (s s' : State) :
  Eth.accounted reqs s -> Eth.step s s' -> Eth.accounted reqs s'.
Proof.
  intros (Hq & Hts & Hsd & Hcount & Hbudget) Hstep.
  destruct Hstep as [s req rest Hin|s before after n req Htasks].
  - rewrite Hin in Hq, Hcount, Hbudget. rewrite budget_cons in Hbudget.
    cbn [length] in Hcount.
    apply Forall_cons in Hq as [[Hreq Hkey] Hrest].
    destruct (request_outcome req (Eth.setInCh rest s))
      as (s1 & -> & Hin1 & Hsub1 & Hcase).
    cbn [snd Eth.setInCh Eth.inCh Eth.tasks Eth.trace] in *.
    unfold Eth.accounted. rewrite Hin1, Hsub1.
    destruct Hcase as [(-> & ev & -> & Hid)|(Hlt & -> & nn & ->)].
    + split; [done|]. split; [done|]. split.
      { apply Forall_app_2; [done|]. constructor; [|done].
        cbn [fst snd]. by rewrite Hid. }
      rewrite length_app. cbn [length]. split; lia.
    + split; [done|]. split.
      { apply Forall_app_2; [done|]. constructor; [|done].
        cbn [snd]. split; [lia|done]. }
      split; [done|].
      rewrite length_app, map_app, budget_app. cbn [length map snd].
      rewrite budget_cons, budget_nil. split; lia.
  - rewrite Htasks in Hts, Hcount, Hbudget.
    apply Forall_app in Hts as [Hbefore Hts].
    apply Forall_cons in Hts as [[Hreq Hkey] Hafter]. cbn [snd] in Hreq, Hkey.
    rewrite length_app in Hcount. cbn [length] in Hcount.
    rewrite map_app, budget_app in Hbudget. cbn [map snd] in Hbudget.
    rewrite budget_cons in Hbudget.
    destruct (transactionTask_outcome n req (Eth.setTasks (before ++ after) s))
      as (s1 & sub & -> & Hts1 & _ & Hsub1 & Hlen & Hcase).
    cbn [snd Eth.setTasks Eth.inCh Eth.tasks Eth.trace] in *.
    unfold Eth.accounted. rewrite Hts1, Hsub1, !length_app, map_app, budget_app.
    destruct Hcase as [(-> & _ & ev & -> & Hid)|(-> & _ & -> & Hone)].
    + split; [done|]. split; [by apply Forall_app_2|]. split.
      { apply Forall_app_2; [done|]. constructor; [|done].
        cbn [fst snd]. by rewrite Hid. }
      rewrite !length_app. cbn [length]. split; lia.
    + destruct (IncAttempts_small req Hreq) as [Hinc Hk].
      split.
      { apply Forall_app_2; [done|]. constructor; [|done].
        rewrite Hinc, Hk. split; [lia|done]. }
      split; [by apply Forall_app_2|]. split; [done|].
      rewrite !length_app, budget_app, budget_cons, budget_nil, Hinc.
      cbn [length]. split; lia.
Qed.

Lemma fresh_budget (reqs : list Eth.ethRequest) :
  Forall (fun r => Eth.GetAttempts r = 0) reqs ->
  Eth.budget reqs = 10 * Z.of_nat (length reqs).
Proof.
  induction 1 as [|r reqs Hr _ IH]; [reflexivity|].
  rewrite budget_cons, Hr, IH. cbn [length]. lia.
Qed.

Lemma initial_accounted (n0 : Z) (w : Eth.World B) (reqs : list Eth.ethRequest) :
  Forall (fun r => Eth.GetAttempts r = 0) reqs ->
  Eth.accounted reqs (Eth.initial n0 w reqs).
Proof.
  intros Hfresh. unfold Eth.accounted, Eth.initial.
  cbn [Eth.inCh Eth.tasks Eth.trace].
  split.
  { apply Forall_forall. intros r Hr.
    rewrite Forall_forall in Hfresh. rewrite (Hfresh r Hr).
    split; [lia|]. change (map Eth.reqKey reqs) with (Eth.reqKey <$> reqs).
    by apply list_elem_of_fmap_2. }
  split; [constructor|]. split; [constructor|]. split; [cbn; lia|].
  rewrite (fresh_budget reqs Hfresh). cbn [map Eth.submitted omap list_omap length].
  rewrite budget_nil. lia.
Qed.

Lemma reachable_accounted (n0 : Z) (w : Eth.World B) (reqs : list Eth.ethRequest)
    (s : State) :
  Forall (fun r => Eth.GetAttempts r = 0) reqs ->
  Eth.reachable (Eth.initial n0 w reqs) s ->
  Eth.accounted reqs s.
Proof.
  intros Hfresh Hreach. unfold Eth.reachable in Hreach.
  revert s Hreach. apply (rtc_ind_r (Eth.accounted reqs)).
  - by apply initial_accounted.
  - intros s1 s2 _ Hstep IH. eapply step_accounted; eauto.
Qed.




(** X4: every event the client sends goes to the reply channel of one of
    the requests it was given and carries that request's id. *)
Theorem events_go_to_their_request (n0 : Z) (w : Eth.World B)
    (reqs : list Eth.ethRequest) (s : State) :
  Forall (fun r => Eth.GetAttempts r = 0) reqs ->
  Eth.reachable (Eth.initial n0 w reqs) s ->
  Forall (fun oe => exists r, r ∈ reqs /\ Eth.OutCh r = fst oe
                              /\ Eth.RequestID r = Eth.EventID (snd oe))
    (Eth.sends (Eth.trace s)).
Proof.
  intros Hfresh Hreach.
  destruct (reachable_accounted n0 w reqs s Hfresh Hreach) as (_ & _ & Hsd & _).
  eapply Forall_impl; [exact Hsd|]. cbn. intros [out ev] Hin.
  change (map Eth.reqKey reqs) with (Eth.reqKey <$> reqs) in Hin.
  apply list_elem_of_fmap in Hin as (r & Hkey & Hr).
  exists r. unfold Eth.reqKey in Hkey. cbn in Hkey. injection Hkey as Ho He.
  cbn [fst snd]. by rewrite Ho, He.
Qed.

(** The two schedules are moves of the client, or leave it where it is. *)
Lemma loopStep_reachable (s : State) : Eth.reachable s (Eth.loopStep s).
Proof.
  unfold Eth.reachable, Eth.loopStep.
  destruct (Eth.inCh s) as [|req rest] eqn:Hq; [apply rtc_refl|].
  apply rtc_once. by apply Eth.step_loop.
Qed.

Lemma taskStep_reachable (i : nat) (s : State) :
  Eth.reachable s (Eth.taskStep i s).
Proof.
  unfold Eth.reachable, Eth.taskStep.
  destruct (Eth.tasks s !! i) as [[n req]|] eqn:Hi; [|apply rtc_refl].
  apply rtc_once, Eth.step_task. symmetry. by apply take_drop_middle.
Qed.

(** X5: every request the loop serves for the first time takes a nonce,
    whether or not a transaction is submitted with it: when gas estimation
    fails, the request is answered with the estimate-gas error event,
    nothing is constructed or submitted and the request is not retried,
    but the counter has moved one up. *)
Theorem estimate_failure_spends_nonce (req : Eth.ethRequest)
    (rest : list Eth.ethRequest) (s : State) (err : string) (w : Eth.World B) :
  Eth.GetAttempts req = 0 ->
  Eth.inCh s = req :: rest ->
  Eth.tasks s = [] ->
  Eth.EstimateGas B (Eth.estimateMsg (Eth.reqAddress req) (Eth.reqData req))
    (Eth.world s) = (inr err, w) ->
  let s' := Eth.taskStep 0 (Eth.loopStep s) in
  Eth.nonce s' = wrap64 (Eth.nonce s + 1)
  /\ Eth.spawns (Eth.trace s') = Eth.spawns (Eth.trace s) ++ [(Eth.nonce s, req)]
  /\ Eth.constructed (Eth.trace s') = Eth.constructed (Eth.trace s)
  /\ Eth.submitted (Eth.trace s') = Eth.submitted (Eth.trace s)
  /\ Eth.sends (Eth.trace s') =
       Eth.sends (Eth.trace s) ++
         [(Eth.OutCh req, Eth.errorEvent (Eth.RequestID req) Eth.ErrEstimateGas)]
  /\ Eth.inCh s' = rest
  /\ Eth.tasks s' = [].
Proof.
  intros H0 Hin Hts Hgas. cbn zeta.
  unfold Eth.loopStep. rewrite Hin, (request_first_attempt req _ H0).
  unfold Eth.taskStep. cbn [snd Eth.emit Eth.setTasks Eth.setNonce Eth.setInCh
                            Eth.tasks Eth.nonce Eth.inCh Eth.trace Eth.world].
  rewrite Hts. cbn [app lookup list_lookup take drop].
  unfold Eth.transactionTask, Eth.bind at 1. rewrite fn_executeTransaction.
  unfold Eth.executeTransaction, Eth.estimateGas, Eth.bind, Eth.call, Eth.ret.
  cbn [Eth.world Eth.emit Eth.setTasks Eth.setNonce Eth.setInCh Eth.setWorld].
  rewrite Hgas.
  cbn [snd Eth.chanSend Eth.emit Eth.setWorld Eth.nonce Eth.inCh Eth.tasks Eth.trace].
  unfold Eth.spawns, Eth.constructed, Eth.submitted, Eth.sends.
  cbn. rewrite !omap_app. cbn. rewrite !app_nil_r. done.
Qed.

(** X6: [updateNonce] never lowers the nonce counter: after it the counter
    is at least what it was, and exactly what it was when the refresh
    failed; it makes at most ten queries and touches neither [inCh] nor the
    goroutines. *)
Theorem updateNonce_never_lowers_counter (s : State) :
  Eth.nonce s <= Eth.nonce (snd (Eth.updateNonce s))
  /\ (fst (Eth.updateNonce s) <> None ->
        Eth.nonce (snd (Eth.updateNonce s)) = Eth.nonce s)
  /\ (length (Eth.nonceCalls (Eth.trace (snd (Eth.updateNonce s))))
      <= length (Eth.nonceCalls (Eth.trace s)) + 10)%nat
  /\ Eth.inCh (snd (Eth.updateNonce s)) = Eth.inCh s
  /\ Eth.tasks (snd (Eth.updateNonce s)) = Eth.tasks s.
Proof.
  unfold Eth.updateNonce.
  destruct (updateNonceLoop_run 10 s)
    as (err & s1 & ext & -> & Htr & Hext & Hlen & Hin & Hts & Hn & Herr).
  cbn [fst snd]. split; [done|]. split; [intros He; by apply Herr|].
  split; [|done]. rewrite Htr, nonceCalls_app, length_app.
  assert (length (Eth.nonceCalls ext) <= length ext)%nat.
  { unfold Eth.nonceCalls. clear. induction ext as [|e ext IH]; cbn; [lia|].
    destruct e; cbn; lia. }
  lia.
Qed.

(** X7: once a transaction is submitted, the receipt decides the answer:
    with status 1 the request is answered with the execute-service event
    carrying the receipt's contract address (for a call as for a
    deployment), with any other status with the receipt-status error
    event; in both cases exactly that one event is sent and the request is
    not retried. *)
Theorem receipt_decides_event (n : Z) (req : Eth.ethRequest) (s : State)
    (gas : Z) (tx : Eth.Transaction) (receipt : Eth.Receipt)
    (w1 w2 w3 : Eth.World B) :
  Eth.EstimateGas B (Eth.estimateMsg (Eth.reqAddress req) (Eth.reqData req))
    (Eth.world s) = (inl gas, w1) ->
  Eth.SignTx B (Eth.buildTx n (Eth.reqAddress req) gas (Eth.reqData req)) = inl tx ->
  Eth.SendTransaction B tx w1 = (None, w2) ->
  Eth.TransactionReceipt B (Eth.TxHash B tx) w2 = (inl receipt, w3) ->
  let ev := if Eth.Status receipt =? 1
            then Eth.backend_ExecuteServiceEvent (Eth.RequestID req)
                   (Eth.AddressHex B (Eth.ContractAddress receipt))
            else Eth.errorEvent (Eth.RequestID req) Eth.ErrTransactionReceiptStatus in
  let s' := snd (Eth.transactionTask n req s) in
  Eth.sends (Eth.trace s') = Eth.sends (Eth.trace s) ++ [(Eth.OutCh req, ev)]
  /\ Eth.submitted (Eth.trace s') = Eth.submitted (Eth.trace s) ++ [tx]
  /\ Eth.requeues (Eth.trace s') = Eth.requeues (Eth.trace s)
  /\ Eth.inCh s' = Eth.inCh s
  /\ Eth.world s' = w3.
Proof.
  intros Hgas Hsign Hsend Hrc. cbn zeta.
  unfold Eth.transactionTask, Eth.bind at 1. rewrite fn_executeTransaction.
  unfold Eth.executeTransaction, Eth.estimateGas, Eth.bind, Eth.call, Eth.ret.
  rewrite Hgas. cbn [Eth.world Eth.emit Eth.setWorld]. rewrite Hsign.
  cbn [Eth.world Eth.emit Eth.setWorld]. rewrite Hsend.
  cbn [Eth.world Eth.emit Eth.setWorld]. rewrite Hrc.
  destruct (Eth.Status receipt =? 1); cbn [negb];
    cbn [snd Eth.chanSend Eth.emit Eth.setWorld Eth.nonce Eth.inCh Eth.tasks
         Eth.trace Eth.world];
    rewrite !sends_app, !submitted_app, !requeues_app; cbn; rewrite !app_nil_r; done.
Qed.

(** X8: a goroutine submits at most one transaction, and only one the
    signer returned for the transaction built from the request, the nonce
    it was given and the gas the node estimated; when gas estimation or
    signing fails nothing is submitted. *)
Theorem only_signed_transactions_are_submitted (n : Z) (req : Eth.ethRequest)
    (s : State) :
  exists sub,
    Eth.submitted (Eth.trace (snd (Eth.transactionTask n req s))) =
      Eth.submitted (Eth.trace s) ++ sub
    /\ (sub = []
        \/ exists gas w tx,
             Eth.EstimateGas B
               (Eth.estimateMsg (Eth.reqAddress req) (Eth.reqData req))
               (Eth.world s) = (inl gas, w)
             /\ Eth.SignTx B
                  (Eth.buildTx n (Eth.reqAddress req) gas (Eth.reqData req)) = inl tx
             /\ sub = [tx]).
Proof.
  unfold Eth.transactionTask, Eth.bind at 1. rewrite fn_executeTransaction.
  unfold Eth.executeTransaction, Eth.estimateGas, Eth.bind, Eth.call, Eth.ret.
  destruct (Eth.EstimateGas B _ (Eth.world s)) as [[gas|e] w1] eqn:Hgas;
    cbn [Eth.world Eth.emit Eth.setWorld].
  2: { exists []. split; [read_trace; done|by left]. }
  destruct (Eth.SignTx B _) as [tx|e] eqn:Hsign.
  2: { exists []. split; [read_trace; done|by left]. }
  exists [tx]. split; [|right; by exists gas, w1, tx].
  cbn [Eth.world Eth.emit Eth.setWorld].
  destruct (Eth.SendTransaction B tx w1) as [[cause|] w2];
    cbn [Eth.world Eth.emit Eth.setWorld].
  { cbv beta iota zeta.
    destruct (Contains (Eth.ErrText B Eth.ErrSendTransaction cause) "nonce");
      read_trace; done. }
  destruct (Eth.TransactionReceipt B _ w2) as [[receipt|e] w3];
    [destruct (Eth.Status receipt =? 1)|]; read_trace; done.
Qed.

(** X9: [ExecuteService] answers a request with an empty address itself,
    with the invalid-address error event, without enqueuing anything or
    calling the node; so every execute request that reaches the owner has
    an address, and the transaction built for it is a call to that address,
    never a contract creation. *)
Theorem execute_requests_are_calls (out : Eth.chan) (id : Z)
    (ereq : Eth.ExecuteServiceRequest) (s : State) :
  (Eth.esAddress ereq = "" ->
     Eth.ExecuteService out id ereq s =
       (Some (Eth.errorEvent id Eth.ErrInvalidAddress), s))
  /\ (forall s', Eth.ExecuteService out id ereq s = (None, s') ->
        let r := Eth.executeServiceRequest 0 out id ereq in
        s' = Eth.setInCh (Eth.inCh s ++ [r]) s
        /\ forall n gas,
             Eth.txTo (Eth.buildTx n (Eth.reqAddress r) gas (Eth.reqData r)) =
               Some (Eth.HexToAddress B (Eth.esAddress ereq))
             /\ Eth.isContractCreation
                  (Eth.buildTx n (Eth.reqAddress r) gas (Eth.reqData r)) = false).
Proof.
  unfold Eth.ExecuteService. split.
  - intros ->. reflexivity.
  - intros s'. destruct (Z.eqb_spec (len (Eth.esAddress ereq)) 0) as [H0|Hn0].
    + discriminate.
    + intros [= <-]. cbn zeta. split; [reflexivity|]. intros n gas.
      unfold Eth.buildTx. cbn [Eth.reqAddress Eth.reqData].
      destruct (Z.eqb_spec (len (Eth.esAddress ereq)) 0); [done|]. done.
Qed.

(** How the loop's serving of a request moves the nonce counter. *)
Lemma request_nonce (req : Eth.ethRequest) (s : State) :
  (Eth.spawns (Eth.trace (snd (Eth.request req s))) = Eth.spawns (Eth.trace s)
   /\ Eth.nonce s <= Eth.nonce (snd (Eth.request req s)))
  \/ (exists m,
        Eth.nonce s <= m
        /\ Eth.spawns (Eth.trace (snd (Eth.request req s))) =
             Eth.spawns (Eth.trace s) ++ [(m, req)]
        /\ Eth.nonce (snd (Eth.request req s)) = wrap64 (m + 1)).
Proof.
  unfold Eth.request, Eth.runTransaction.
  destruct (10 <=? Eth.GetAttempts req).
  { left. cbn. rewrite spawns_app. cbn. rewrite app_nil_r. split; [done|lia]. }
  unfold Eth.bind.
  assert (Hup : exists (err : error) (s1 : State) (ext : list Eth.Effect),
            (if 0 <? Eth.GetAttempts req then Eth.updateNonce else Eth.ret None) s
              = (err, s1)
            /\ Eth.trace s1 = Eth.trace s ++ ext
            /\ Forall Eth.isNonceCall ext
            /\ Eth.nonce s <= Eth.nonce s1).
  { destruct (0 <? Eth.GetAttempts req).
    - destruct (updateNonceLoop_run 10 s)
        as (err & s1 & ext & Hrun & Htr & Hext & _ & _ & _ & Hn & _).
      exists err, s1, ext. done.
    - exists None, s, []. cbn. rewrite app_nil_r. repeat split; done. }
  destruct Hup as (err & s1 & ext & -> & Htr & Hext & Hn).
  destruct (nonceCall_readings ext Hext) as (Hsp & _).
  destruct err as [e|]; cbn; rewrite Htr, !spawns_app, Hsp; cbn; rewrite ?app_nil_r.
  - left. done.
  - right. exists (Eth.nonce s1). done.
Qed.

Lemma neverBack_snoc (ns : list Z) (m : Z) :
  Eth.neverBack ns ->
  (forall n, last ns = Some n -> wrap64 (n + 1) <= m) ->
  Eth.neverBack (ns ++ [m]).
Proof.
  intros Hns Hlast i n k Hi HSi.
  destruct (decide (S i < length ns)%nat) as [Hlt|Hge].
  - rewrite lookup_app_l in Hi by lia. rewrite lookup_app_l in HSi by lia.
    by eapply Hns.
  - assert (HSi' : S i = length ns).
    { apply lookup_lt_Some in HSi. rewrite length_app in HSi. cbn in HSi. lia. }
    rewrite lookup_app_l in Hi by lia.
    rewrite lookup_app_r in HSi by lia.
    replace (S i - length ns)%nat with 0%nat in HSi by lia.
    cbn in HSi. injection HSi as <-. apply Hlast.
    rewrite last_lookup. rewrite <- HSi'. cbn. exact Hi.
Qed.

(** The nonces handed out so far never went back, and the counter is past
    the last of them. *)
Lemma step_neverBack (s s' : State) :
  Eth.neverBack (map fst (Eth.spawns (Eth.trace s)))
  /\ (forall n, last (map fst (Eth.spawns (Eth.trace s))) = Some n ->
        wrap64 (n + 1) <= Eth.nonce s) ->
  Eth.step s s' ->
  Eth.neverBack (map fst (Eth.spawns (Eth.trace s')))
  /\ (forall n, last (map fst (Eth.spawns (Eth.trace s'))) = Some n ->
        wrap64 (n + 1) <= Eth.nonce s').
Proof.
  intros [Hnb Hlast] Hstep.
  destruct Hstep as [s req rest Hin|s before after n req Htasks].
  - destruct (request_nonce req (Eth.setInCh rest s))
      as [[-> Hn]|(m & Hm & -> & ->)]; cbn [Eth.setInCh Eth.trace Eth.nonce] in *.
    + split; [done|]. intros k Hk. specialize (Hlast k Hk). lia.
    + rewrite map_app. cbn [map fst]. split.
      * apply neverBack_snoc; [done|]. intros k Hk. specialize (Hlast k Hk). lia.
      * intros k Hk. rewrite last_snoc in Hk. injection Hk as <-. lia.
  - destruct (transactionTask_outcome n req (Eth.setTasks (before ++ after) s))
      as (s1 & sub & Hrun & _ & Hn1 & _).
    destruct (fn_outcome n req (Eth.setTasks (before ++ after) s))
      as (r & s2 & ext & Hfn & Htr & Hext & _).
    destruct (nodeCalls_readings ext Hext) as (Hsp & _).
    assert (Hsame : Eth.spawns (Eth.trace s1) = Eth.spawns (Eth.trace s)).
    { revert Hrun. unfold Eth.transactionTask, Eth.bind. rewrite Hfn.
      destruct r as [ev|text]; [|destruct (Contains text "nonce")]; cbn;
        intros [= <-]; cbn; rewrite Htr, !spawns_app, Hsp; cbn;
        by rewrite ?app_nil_r. }
    rewrite Hrun. cbn [snd]. rewrite Hsame, Hn1. done.
Qed.

(** X24: the nonces the owner hands out never repeat and never go back,
    short of the wrap-around of the 64-bit counter: in every state the
    client reaches, with or without retries and whatever the node answers,
    each goroutine was started with a nonce that is at least the previous
    one plus one, modulo 2^64. *)
Theorem nonces_never_go_back (n0 : Z) (w : Eth.World B)
    (reqs : list Eth.ethRequest) (s : State) :
  Eth.reachable (Eth.initial n0 w reqs) s ->
  Eth.neverBack (map fst (Eth.spawns (Eth.trace s))).
Proof.
  intros Hreach. unfold Eth.reachable in Hreach.
  enough (Hinv : Eth.neverBack (map fst (Eth.spawns (Eth.trace s)))
                 /\ (forall n, last (map fst (Eth.spawns (Eth.trace s))) = Some n ->
                       wrap64 (n + 1) <= Eth.nonce s)) by apply Hinv.
  revert s Hreach.
  apply (rtc_ind_r (fun s => Eth.neverBack (map fst (Eth.spawns (Eth.trace s)))
                             /\ (forall n, last (map fst (Eth.spawns (Eth.trace s)))
                                            = Some n ->
                                  wrap64 (n + 1) <= Eth.nonce s))).
  - split; [by intros i n m Hi|]. by intros n Hn.
  - intros s1 s2 _ Hstep IH. by eapply step_neverBack.
Qed.

End EthAccounting.

(** The state in which the second of two deploy requests ran first is one
    the client reaches. *)
Lemma secondRanFirst_reachable : Eth.reachable twoWaiting secondRanFirst.
Proof.
  unfold secondRanFirst, twoSpawned, Eth.reachable.
  etrans; [apply loopStep_reachable|]. etrans; [apply loopStep_reachable|].
  etrans; [apply taskStep_reachable|]. apply taskStep_reachable.
Qed.

Lemma twoDeploys_fresh : Forall (fun r => Eth.GetAttempts r = 0) twoDeploys.
Proof. repeat constructor. Qed.




Lemma events_go_to_their_request_witness :
  Forall (fun oe => exists r, r ∈ twoDeploys /\ Eth.OutCh r = fst oe
                              /\ Eth.RequestID r = Eth.EventID (snd oe))
    (Eth.sends (Eth.trace secondRanFirst)).
Proof.
  apply (@events_go_to_their_request scriptedBackend 0 calmNode twoDeploys
           secondRanFirst twoDeploys_fresh secondRanFirst_reachable).
Defined.

Lemma estimate_failure_spends_nonce_witness :
  Eth.nonce (Eth.taskStep 0 (Eth.loopStep gaslessWaiting)) = 5
  /\ Eth.submitted (Eth.trace (Eth.taskStep 0 (Eth.loopStep gaslessWaiting))) = [].
Proof.
  destruct (@estimate_failure_spends_nonce gaslessBackend (sampleExecute 0 1) []
              gaslessWaiting "gas required exceeds allowance" calmNode
              eq_refl eq_refl eq_refl eq_refl)
    as (Hn & _ & _ & Hsub & _).
  split; [exact Hn|exact Hsub].
Defined.

Lemma receipt_decides_event_witness :
  Eth.sends
    (Eth.trace (snd (Eth.transactionTask 3 (sampleExecute 0 1)
                       (Eth.initial (B:=scriptedBackend) 4 calmNode [])))) =
    [(1%nat, Eth.backend_ExecuteServiceEvent 1 "0xc0")].
Proof.
  destruct (@receipt_decides_event scriptedBackend 3 (sampleExecute 0 1)
              (Eth.initial (B:=scriptedBackend) 4 calmNode []) 21000
              sampleSignedTx
              {| Eth.Status := 1; Eth.ContractAddress := "0xc0" |}
              calmNode calmNode calmNode eq_refl eq_refl eq_refl eq_refl)
    as (Hs & _).
  exact Hs.
Defined.

Lemma nonces_never_go_back_witness :
  Eth.neverBack (map fst (Eth.spawns (Eth.trace secondRanFirst))).
Proof.
  apply (@nonces_never_go_back scriptedBackend 0 calmNode twoDeploys
           secondRanFirst secondRanFirst_reachable).
Defined.

(** ** mqueue/mem: the server's map of workers *)

Section MemServerMap.

Variable Worker : Type.
Variable NewWorker : string -> Worker.
Variable Worker_Insert : Mem.Element -> Worker -> error * Worker.
Variable Worker_Retrieve : Z -> Z -> Worker -> Mem.Elements * Worker.
Variable Worker_Discard : Z -> Worker -> error * Worker.
Variable Worker_Next : Worker -> Z * Worker.

Local Abbreviation serveRequest :=
  (Mem.serveRequest Worker NewWorker Worker_Insert Worker_Retrieve Worker_Discard
     Worker_Next).
Local Abbreviation serveInput :=
  (Mem.serveInput Worker NewWorker Worker_Insert Worker_Retrieve Worker_Discard
     Worker_Next).
Local Abbreviation serveLoop :=
  (Mem.serveLoop Worker NewWorker Worker_Insert Worker_Retrieve Worker_Discard
     Worker_Next).
Local Abbreviation removeWorker := (Mem.removeWorker Worker).
Local Abbreviation workers := (Mem.workers Worker).

(** The keys with a worker after one request. *)
Lemma serveRequest_dom (req : Mem.request) (s : Mem.Server Worker) :
  dom (workers (snd (serveRequest req s))) =
    Mem.liveKeys [Mem.fromInCh req] (dom (workers s)).
Proof.
  assert (Hold : forall (key : string) (w w' : Worker),
            workers s !! key = Some w ->
            dom (<[key := w']> (workers s)) = dom (workers s)).
  { intros key w w' Hk. rewrite dom_insert_L.
    apply subseteq_union_1_L, singleton_subseteq_l. by eapply elem_of_dom_2. }
  destruct req as [key el|key offset count|key offset|key];
    cbn [Mem.serveRequest Mem.liveKeys].
  - unfold Mem.insert. destruct (Worker_Insert _ _) as [e w']. cbn.
    by rewrite dom_insert_L, (comm_L (∪)).
  - unfold Mem.retrieve. destruct (workers s !! key) as [w|] eqn:Hk; [|done].
    destruct (Worker_Retrieve _ _ _) as [els w']. cbn. by eapply Hold.
  - unfold Mem.discard. destruct (workers s !! key) as [w|] eqn:Hk; [|done].
    destruct (Worker_Discard _ _) as [e w']. cbn. by eapply Hold.
  - unfold Mem.next. destruct (Worker_Next _) as [offset w']. cbn.
    by rewrite dom_insert_L, (comm_L (∪)).
Qed.

Lemma removeWorker_dom (key : string) (s : Mem.Server Worker) :
  dom (workers (removeWorker key s)) = dom (workers s) ∖ {[key]}.
Proof.
  unfold Mem.removeWorker. destruct (workers s !! key) as [w|] eqn:Hk; cbn.
  - by rewrite dom_delete_L.
  - symmetry. apply difference_disjoint_L, disjoint_singleton_r.
    by apply not_elem_of_dom.
Qed.

(** X10: which keys have a queue depends on the sequence of operations
    only, not on what the workers do: after the server loop has received
    any inputs, the keys of its map are the earlier keys, plus those of the
    [Insert] and [Next] requests, minus those whose worker timed out since,
    in the order received. [Retrieve] and [Discard] never create a queue. *)
Theorem live_queues_follow_operations (inputs : list Mem.input)
    (s : Mem.Server Worker) :
  dom (workers (snd (serveLoop inputs s))) = Mem.liveKeys inputs (dom (workers s)).
Proof.
  revert s. induction inputs as [|i rest IH]; intros s; [reflexivity|].
  cbn [Mem.serveLoop].
  destruct (serveInput i s) as [rs1 s1] eqn:H1.
  destruct (serveLoop rest s1) as [rs2 s2] eqn:H2.
  cbn [snd]. replace s2 with (snd (serveLoop rest s1)) by (by rewrite H2).
  rewrite IH.
  destruct i as [req|key]; cbn [Mem.serveInput] in H1.
  - destruct (serveRequest req s) as [r s'] eqn:Hr. injection H1 as _ <-.
    replace s' with (snd (serveRequest req s)) by (by rewrite Hr).
    rewrite serveRequest_dom. destruct req; reflexivity.
  - injection H1 as _ <-. rewrite removeWorker_dom. reflexivity.
Qed.

(** X11: a request only touches the worker of its own key: the worker
    registered under any other key is the same before and after. *)
Theorem request_leaves_other_keys_alone (req : Mem.request)
    (s : Mem.Server Worker) (other : string) :
  other <> Mem.requestKey req ->
  workers (snd (serveRequest req s)) !! other = workers s !! other.
Proof.
  intros Hne.
  destruct req as [key el|key offset count|key offset|key];
    cbn [Mem.serveRequest Mem.requestKey] in *.
  - unfold Mem.insert. destruct (Worker_Insert _ _) as [e w']. cbn.
    by rewrite lookup_insert_ne.
  - unfold Mem.retrieve. destruct (workers s !! key) as [w|]; [|done].
    destruct (Worker_Retrieve _ _ _) as [els w']. cbn. by rewrite lookup_insert_ne.
  - unfold Mem.discard. destruct (workers s !! key) as [w|]; [|done].
    destruct (Worker_Discard _ _) as [e w']. cbn. by rewrite lookup_insert_ne.
  - unfold Mem.next. destruct (Worker_Next _) as [offset w']. cbn.
    by rewrite lookup_insert_ne.
Qed.

(** X12: an idle timeout forgets the queue altogether: once the worker of a
    key was removed, every request for that key is answered as on a server
    that was just created. [Retrieve] gets the empty window at offset 0,
    the handler of [Discard] reports the missing queue, and [Insert] and
    [Next] start over with a new worker, so [Next] hands out again the
    offsets it handed out before. *)
Theorem removed_worker_is_forgotten (req : Mem.request) (s : Mem.Server Worker)
    (from upto : Z) :
  fst (serveRequest req (removeWorker (Mem.requestKey req) s)) =
    fst (serveRequest req (Mem.NewServer Worker))
  /\ fst (Mem.Retrieve Worker NewWorker Worker_Insert Worker_Retrieve Worker_Discard
            Worker_Next (Mem.requestKey req) from upto
            (removeWorker (Mem.requestKey req) s)) =
       ({| Mem.WindowOffset := 0; Mem.Items := [] |}, None).
Proof.
  assert (Hgone : workers (removeWorker (Mem.requestKey req) s)
                    !! Mem.requestKey req = None).
  { unfold Mem.removeWorker.
    destruct (workers s !! Mem.requestKey req) eqn:Hk; cbn; [|done].
    apply lookup_delete_eq. }
  split.
  - destruct req as [key el|key offset count|key offset|key];
      cbn [Mem.serveRequest Mem.requestKey] in *;
      unfold Mem.insert, Mem.retrieve, Mem.discard, Mem.next;
      rewrite Hgone; cbn; try reflexivity.
    + by destruct (Worker_Insert _ _).
    + by destruct (Worker_Next _).
  - unfold Mem.Retrieve, Mem.serveRequest, Mem.retrieve. by rewrite Hgone.
Qed.

End MemServerMap.

Lemma request_leaves_other_keys_alone_witness :
  Mem.workers Z
    (snd (counterServeRequest (Mem.nextWorkerRequest "a")
            {| Mem.workers := {["b" := 7]} |})) !! "b" = Some 7.
Proof.
  rewrite (request_leaves_other_keys_alone Z counterNewWorker counterInsert
             counterRetrieve counterDiscard counterNext
             (Mem.nextWorkerRequest "a") {| Mem.workers := {["b" := 7]} |} "b").
  - reflexivity.
  - discriminate.
Defined.

(** ** mqueue/redis *)

Section RedisRetrieveMore.

Variable unmarshalElement : string -> Redis.redisElement + string.
Variable unmarshalString : string -> string + string.

Local Abbreviation retrieve := (Redis.retrieve unmarshalElement unmarshalString).
Local Abbreviation toElement := (Redis.toElement unmarshalString).
Local Abbreviation decodesTo := (Redis.decodesTo unmarshalElement).
Local Abbreviation setValuesDecode := (Redis.setValuesDecode unmarshalString).

(** X13: [retrieve] is all or nothing: it returns elements exactly when
    every entry of the script's answer decodes and the content of every
    entry that is set decodes as a string; a single entry that does not
    makes the whole call fail, also when the entries before it were fine. *)
Theorem retrieve_succeeds_iff_all_decode (blobs : list string) :
  (exists els, retrieve (inl blobs) = inr els)
  <-> (exists ds, decodesTo blobs ds /\ setValuesDecode ds).
Proof.
  split.
  - intros [els Hr]. unfold Redis.retrieve in Hr.
    eapply retrieveLoop_ok_decodes, Hr.
  - intros (ds & Hdec & Hset). eexists. unfold Redis.retrieve.
    apply (retrieveLoop_spec _ _ _ _ Hdec Hset).
Qed.

(** X14: whatever [retrieve] returns, it returns no more elements than the
    script sent entries, their offsets are those of the entries that are
    set, in the script's order, and for an empty answer the result is the
    empty window at offset 0. *)
Theorem retrieve_result_bounds (blobs : list string) (els : Mem.Elements) :
  retrieve (inl blobs) = inr els ->
  (length (Mem.Items els) <= length blobs)%nat
  /\ (exists ds, decodesTo blobs ds
        /\ map Mem.Offset (Mem.Items els) =
             map Redis.Offset (filter (fun d => Redis.Set_ d = true) ds))
  /\ (blobs = [] -> els = {| Mem.WindowOffset := 0; Mem.Items := [] |}).
Proof.
  intros Hr. unfold Redis.retrieve in Hr.
  destruct (retrieveLoop_ok_decodes _ _ _ _ _ _ _ Hr) as (ds & Hdec & Hset).
  rewrite (retrieveLoop_spec _ _ _ _ Hdec Hset) in Hr. injection Hr as <-.
  cbn [Mem.Items Mem.WindowOffset app].
  assert (Hoffs : map Mem.Offset (omap toElement (filter (fun d => Redis.Set_ d = true) ds))
                  = map Redis.Offset (filter (fun d => Redis.Set_ d = true) ds)).
  { clear Hdec. unfold Redis.setValuesDecode in Hset.
    induction Hset as [|x xs Hx _ IH]; [reflexivity|].
    destruct (Redis.Set_ x) eqn:Hs.
    - rewrite filter_cons_True by done.
      destruct (Hx eq_refl) as [e He]. cbn [omap list_omap map]. rewrite He.
      cbn [map]. f_equal; [|exact IH].
      unfold Redis.toElement in He.
      destruct (unmarshalString (Redis.Value x)); [|done].
      by injection He as <-.
    - rewrite filter_cons_False by (rewrite Hs; done). exact IH. }
  split; [|split].
  - rewrite <- (length_map Mem.Offset), Hoffs, length_map.
    rewrite (Forall2_length _ _ _ Hdec). apply length_filter.
  - exists ds. done.
  - intros ->. apply Forall2_nil_inv_l in Hdec as ->. reflexivity.
Qed.

End RedisRetrieveMore.

Lemma retrieve_result_bounds_witness :
  (length (Mem.Items {| Mem.WindowOffset := 5;
                        Mem.Items := [ {| Mem.Offset := 6; Mem.Type_ := "ev";
                                          Mem.Value := "payload" |} ] |})
   <= length ["hole5"; "event6"; "hole7"])%nat.
Proof.
  apply (retrieve_result_bounds sampleUnmarshalElement sampleUnmarshalString
           ["hole5"; "event6"; "hole7"]
           {| Mem.WindowOffset := 5;
              Mem.Items := [ {| Mem.Offset := 6; Mem.Type_ := "ev";
                                Mem.Value := "payload" |} ] |}).
  reflexivity.
Defined.

(** ** noise: the fixed connection pool *)

Section NoisePoolOutcome.

Variable Conn : Type.
Variable World : Type.
Variable DialContext : World -> (Conn + string) * World.

Local Abbreviation dialAll := (Noise.dialAll Conn World DialContext).

Lemma dialAll_outcome (n : nat) :
  forall p : Noise.Pool Conn World,
    Noise.cancelled _ _ p = false ->
    match fst (dialAll n p) with
    | None =>
        length (Noise.loops _ _ (snd (dialAll n p)))
          = (length (Noise.loops _ _ p) + n)%nat
        /\ Noise.cancelled _ _ (snd (dialAll n p)) = false
    | Some _ =>
        (length (Noise.loops _ _ (snd (dialAll n p)))
           < length (Noise.loops _ _ p) + n)%nat
        /\ Noise.cancelled _ _ (snd (dialAll n p)) = true
    end.
Proof.
  induction n as [|n IH]; intros p Hc.
  - cbn. split; [lia|done].
  - cbn [Noise.dialAll]. unfold Noise.dialConnection.
    destruct (DialContext (Noise.world _ _ p)) as [[conn|err] w]; cbn [fst snd].
    + specialize (IH {| Noise.world := w; Noise.loops := Noise.loops _ _ p ++ [conn];
                        Noise.cancelled := Noise.cancelled _ _ p;
                        Noise.closed := Noise.closed _ _ p |} Hc).
      cbn [Noise.loops] in IH. rewrite length_app in IH. cbn [length] in IH.
      destruct (fst (dialAll n _)); destruct IH as [Hlen Hcan]; split; try done; lia.
    + cbn. split; [lia|done].
Qed.

(** X15: [DialFixedPool] is all or nothing towards its caller: it returns
    without error exactly when it has started [Conns] connection loops and
    its context is live, and with an error only when it has started fewer
    and has cancelled the context; it never returns a pool together with
    an error. *)
Theorem DialFixedPool_all_or_nothing (Conns : Z) (w : World) :
  match fst (Noise.DialFixedPool Conn World DialContext Conns w) with
  | None =>
      length (Noise.loops _ _ (snd (Noise.DialFixedPool Conn World DialContext Conns w)))
        = Z.to_nat Conns
      /\ Noise.cancelled _ _ (snd (Noise.DialFixedPool Conn World DialContext Conns w))
         = false
  | Some _ =>
      (length (Noise.loops _ _ (snd (Noise.DialFixedPool Conn World DialContext Conns w)))
         < Z.to_nat Conns)%nat
      /\ Noise.cancelled _ _ (snd (Noise.DialFixedPool Conn World DialContext Conns w))
         = true
  end.
Proof.
  unfold Noise.DialFixedPool.
  apply (dialAll_outcome (Z.to_nat Conns) (Noise.newPool Conn World w) eq_refl).
Qed.

(** X16: with [Conns] zero or negative [DialFixedPool] dials nothing and
    returns, without error, a pool that has no connection loop at all. *)
Theorem DialFixedPool_without_connections (Conns : Z) (w : World) :
  Conns <= 0 ->
  Noise.DialFixedPool Conn World DialContext Conns w =
    (None, Noise.newPool Conn World w).
Proof.
  intros Hle. unfold Noise.DialFixedPool.
  replace (Z.to_nat Conns) with 0%nat by lia. reflexivity.
Qed.

End NoisePoolOutcome.

Lemma DialFixedPool_without_connections_witness :
  Noise.DialFixedPool nat nat secondDialFails (-3) 0%nat =
    (None, Noise.newPool nat nat 0%nat).
Proof.
  apply (DialFixedPool_without_connections nat nat secondDialFails (-3) 0%nat).
  lia.
Defined.

(** ** auth: the middleware and the two plugins *)

Section AuthMiddleware.

Variable Response : Type.
Variable auth_Authenticate :
  Http.Request (option AuthCore.AuthData) -> string * error.
Variable next_ServeHTTP :
  Http.Request (option AuthCore.AuthData)
  -> option Response * option AuthCore.Err.

Local Abbreviation ServeHTTP :=
  (AuthCore.ServeHTTP Response auth_Authenticate next_ServeHTTP).

(** X17: the middleware hands a request to the next handler only when the
    plugin authenticated it and it carries a session key; the handler then
    sees the plugin's expected AAD and the session key in the context. In
    every other case the answer is the 403 error, whatever the next handler
    is: it is not consulted. *)
Theorem middleware_forwards_authenticated_requests_only
    (req : Http.Request (option AuthCore.AuthData)) :
  (forall aad,
      auth_Authenticate req = (aad, None) ->
      Http.HeaderGet req AuthCore.RequestHeaderSessionKey <> "" ->
      ServeHTTP req =
        next_ServeHTTP
          (Http.WithContext req
             (Some {| AuthCore.ExpectedAAD := aad;
                      AuthCore.SessionKey :=
                        Http.HeaderGet req AuthCore.RequestHeaderSessionKey |})))
  /\ (snd (auth_Authenticate req) <> None
      \/ Http.HeaderGet req AuthCore.RequestHeaderSessionKey = "" ->
      ServeHTTP req = AuthCore.forbidden Response).
Proof.
  unfold AuthCore.ServeHTTP. split.
  - intros aad -> Hkey.
    destruct (Z.eqb_spec (len (Http.HeaderGet req AuthCore.RequestHeaderSessionKey)) 0)
      as [H0|_]; [|reflexivity].
    apply len_zero_iff in H0. done.
  - intros Hbad. destruct (auth_Authenticate req) as [aad [e|]]; [reflexivity|].
    destruct Hbad as [Hbad|Hkey]; [done|]. rewrite Hkey. reflexivity.
Qed.

(** X18: with the insecure plugin the middleware lets a request through
    exactly when both the X-OASIS-INSECURE-AUTH and the X-OASIS-SESSION-KEY
    header are non-empty; the expected AAD the handler sees is the value of
    the first header as it came, the session key that of the second. *)
Theorem insecure_middleware_needs_both_headers
    (req : Http.Request (option AuthCore.AuthData)) :
  AuthCore.ServeHTTP Response Insecure.Authenticate next_ServeHTTP req =
    if String.eqb (Http.HeaderGet req Insecure.HeaderKey) ""
       || String.eqb (Http.HeaderGet req AuthCore.RequestHeaderSessionKey) ""
    then AuthCore.forbidden Response
    else next_ServeHTTP
           (Http.WithContext req
              (Some {| AuthCore.ExpectedAAD := Http.HeaderGet req Insecure.HeaderKey;
                       AuthCore.SessionKey :=
                         Http.HeaderGet req AuthCore.RequestHeaderSessionKey |})).
Proof.
  unfold AuthCore.ServeHTTP, Insecure.Authenticate.
  assert (Hlen : forall s : string, (len s =? 0) = String.eqb s "").
  { intros s. destruct (Z.eqb_spec (len s) 0) as [H0|Hn0].
    - apply len_zero_iff in H0. by subst s.
    - destruct (String.eqb_spec s "") as [->|_]; [done|reflexivity]. }
  rewrite !Hlen.
  destruct (String.eqb (Http.HeaderGet req Insecure.HeaderKey) ""); [reflexivity|].
  cbn [orb].
  destruct (String.eqb (Http.HeaderGet req AuthCore.RequestHeaderSessionKey) "");
    reflexivity.
Qed.

End AuthMiddleware.

Section OauthAuthenticate.

Variable IDToken : Type.
Variable verifier_Verify : string -> IDToken + string.
Variable token_Claims : IDToken -> Oauth.OpenIDClaims + string.

Local Abbreviation Authenticate :=
  (Oauth.Authenticate IDToken verifier_Verify token_Claims).

(** X19: [GoogleOauth.Authenticate] succeeds exactly when the token of the
    X-ID-TOKEN header verifies, its claims decode and the e-mail is
    verified; the request it returns then carries that e-mail as AAD in its
    context. When it fails it returns the request as it came. *)
Theorem oauth_authenticate_outcome (req req' : Http.Request Oauth.Context) :
  (Authenticate req = (req', None)
   <-> exists tok claims,
         verifier_Verify (Http.HeaderGet req Oauth.ID_TOKEN_KEY) = inl tok
         /\ token_Claims tok = inl claims
         /\ Oauth.EmailVerified claims = true
         /\ req' = Http.WithContext req
                     {| Oauth.ctxAAD := Some (Oauth.Email claims) |})
  /\ (forall e, Authenticate req = (req', Some e) -> req' = req).
Proof.
  unfold Oauth.Authenticate. split; [split|].
  - destruct (verifier_Verify _) as [tok|e] eqn:Htok; [|done].
    destruct (token_Claims tok) as [claims|e] eqn:Hclaims; [|done].
    destruct (Oauth.EmailVerified claims) eqn:Hv; cbn [negb]; [|done].
    intros [= <-]. exists tok, claims. repeat split; done.
  - intros (tok & claims & -> & -> & -> & ->). reflexivity.
  - intros e. destruct (verifier_Verify _) as [tok|e']; [|by intros [= <- _]].
    destruct (token_Claims tok) as [claims|e']; [|by intros [= <- _]].
    destruct (Oauth.EmailVerified claims); cbn [negb]; [done|by intros [= <- _]].
Qed.

(** X20: a request that [GoogleOauth.Authenticate] has accepted is then
    judged by [GoogleOauth.Verify] on its e-mail alone: [Verify] does not
    panic, turns every Deploy request down, and accepts any other request
    exactly when its AAD is the verified e-mail. *)
Theorem oauth_authenticated_request_verifies_by_email
    (req req' : Http.Request Oauth.Context) (data : Oauth.AuthRequest) :
  Authenticate req = (req', None) ->
  exists email,
    Oauth.ctxAAD (Http.Context req') = Some email
    /\ Oauth.Verify (Http.Context req') data =
         if String.eqb (Oauth.API data) "Deploy"
         then Oauth.Returns
                (Some "GoogleOauth cannot authorize a user to deploy a service")
         else if String.eqb (Oauth.AAD data) email
              then Oauth.Returns None
              else Oauth.Returns (Some "AAD does not match").
Proof.
  unfold Oauth.Authenticate.
  destruct (verifier_Verify _) as [tok|e]; [|done].
  destruct (token_Claims tok) as [claims|e]; [|done].
  destruct (Oauth.EmailVerified claims); cbn [negb]; [|done].
  intros [= <-]. exists (Oauth.Email claims). split; [reflexivity|].
  unfold Oauth.Verify, Oauth.MustGetAAD. cbn.
  destruct (String.eqb (Oauth.API data) "Deploy"); [reflexivity|].
  destruct (String.eqb (Oauth.AAD data) (Oauth.Email claims)); reflexivity.
Qed.

End OauthAuthenticate.

Lemma middleware_forwards_authenticated_requests_only_witness :
  AuthCore.ServeHTTP string Insecure.Authenticate sampleHandler sampleRequest =
    (Some "alice/s3ss10n", None).
Proof.
  destruct (middleware_forwards_authenticated_requests_only string
              Insecure.Authenticate sampleHandler sampleRequest) as [Hfwd _].
  rewrite (Hfwd "alice" eq_refl); [reflexivity|discriminate].
Defined.

Lemma oauth_authenticated_request_verifies_by_email_witness :
  exists email,
    Oauth.ctxAAD
      (Http.Context
         (fst (Oauth.Authenticate string sampleVerifier sampleClaims sampleTokenRequest)))
      = Some email
    /\ Oauth.Verify
         (Http.Context
            (fst (Oauth.Authenticate string sampleVerifier sampleClaims
                    sampleTokenRequest)))
         {| Oauth.API := "Execute"; Oauth.AAD := "test@email.com" |}
       = Oauth.Returns None.
Proof.
  destruct (oauth_authenticated_request_verifies_by_email string sampleVerifier
              sampleClaims sampleTokenRequest
              (fst (Oauth.Authenticate string sampleVerifier sampleClaims
                      sampleTokenRequest))
              {| Oauth.API := "Execute"; Oauth.AAD := "test@email.com" |} eq_refl)
    as (email & Hctx & Hv).
  exists email. split; [exact Hctx|].
  rewrite Hv. cbn in Hctx. injection Hctx as <-. reflexivity.
Defined.

(** ** backend/ekiden *)

(** Strings two characters at a time. *)
Lemma string_pair_ind (P : string -> Prop) :
  P "" ->
  (forall a, P (String a "")) ->
  (forall a b rest, P rest -> P (String a (String b rest))) ->
  forall s, P s.
Proof.
  intros Hnil Hone Hstep s.
  assert (Hboth : P s /\ forall a, P (String a s)).
  { induction s as [|b s [IHs IHa]]; [split; [exact Hnil|exact Hone]|].
    split; [apply IHa|]. intros a. by apply Hstep. }
  apply Hboth.
Qed.

(** [hex.DecodeString] succeeds exactly on an even number of hexadecimal
    digits, and then yields one byte for every two of them. *)
Lemma DecodeString_spec (s : string) :
  match Ekiden.DecodeString s with
  | Some bytes =>
      String.length s = (2 * length bytes)%nat
      /\ forallb Ekiden.isHexDigit (list_ascii_of_string s) = true
  | None =>
      Nat.Odd (String.length s)
      \/ forallb Ekiden.isHexDigit (list_ascii_of_string s) = false
  end.
Proof.
  induction s as [| a | a b rest IH] using string_pair_ind.
  - done.
  - left. by exists 0%nat.
  - cbn [Ekiden.DecodeString list_ascii_of_string forallb String.length].
    change (Ekiden.isHexDigit a)
      with (match Ekiden.fromHexChar a with Some _ => true | None => false end).
    change (Ekiden.isHexDigit b)
      with (match Ekiden.fromHexChar b with Some _ => true | None => false end).
    destruct (Ekiden.fromHexChar a) as [hi|]; [|by right].
    destruct (Ekiden.fromHexChar b) as [lo|]; [|by right].
    destruct (Ekiden.DecodeString rest) as [bytes|].
    + destruct IH as [Hlen Hhex]. cbn [length andb]. split; [lia|exact Hhex].
    + destruct IH as [[k Hk]|Hhex]; [left; exists (S k); lia|by right].
Qed.

Lemma fortyHexDigits_decodes (s : string) :
  if Ekiden.fortyHexDigits s
  then exists bytes, Ekiden.DecodeString s = Some bytes /\ length bytes = 20%nat
  else Ekiden.DecodeString s = None
       \/ exists bytes, Ekiden.DecodeString s = Some bytes /\ length bytes <> 20%nat.
Proof.
  unfold Ekiden.fortyHexDigits. pose proof (DecodeString_spec s) as Hspec.
  destruct (Nat.eqb_spec (String.length s) 40) as [Hlen|Hlen]; cbn [andb].
  - destruct (forallb Ekiden.isHexDigit (list_ascii_of_string s)) eqn:Hhex.
    + destruct (Ekiden.DecodeString s) as [bytes|].
      * exists bytes. split; [done|]. lia.
      * destruct Hspec as [[k Hk]|?]; [lia|done].
    + destruct (Ekiden.DecodeString s) as [bytes|]; [|by left].
      destruct Hspec as [_ ?]. done.
  - destruct (Ekiden.DecodeString s) as [bytes|]; [|by left].
    right. exists bytes. split; [done|]. lia.
Qed.

Section EkidenClient.

Variable World : Type.
Variable KeyManagerReply : Type.
Variable RuntimeReply : Type.
Variable keyManager_GetPublicKey :
  list Z -> World -> (KeyManagerReply + string) * World.
Variable runtime_EthereumTransaction :
  list Z -> list Z -> World -> (RuntimeReply + string) * World.
Variable SignTx : Eth.Transaction -> Eth.Transaction + string.
Variable EncodeRLP : Eth.Transaction -> list Z + string.
Variable HexToAddress : string -> Eth.Address.

Local Abbreviation GetPublicKey :=
  (Ekiden.GetPublicKey World KeyManagerReply keyManager_GetPublicKey).
Local Abbreviation submitTx :=
  (Ekiden.submitTx World RuntimeReply runtime_EthereumTransaction SignTx EncodeRLP
     HexToAddress).
Local Abbreviation ExecuteService :=
  (Ekiden.ExecuteService World RuntimeReply runtime_EthereumTransaction SignTx
     EncodeRLP HexToAddress).
Local Abbreviation DeployService :=
  (Ekiden.DeployService World RuntimeReply runtime_EthereumTransaction SignTx
     EncodeRLP HexToAddress).

(** X21: the ekiden client's [GetPublicKey] asks the key manager exactly
    when the address is 40 hexadecimal digits, with the 20 bytes they
    encode; any other address is answered with the invalid-address error
    and the node is left alone. When the key manager answers, the response
    is the empty one: nothing of the answer is passed on. *)
Theorem GetPublicKey_needs_forty_hex_digits (c : Ekiden.Client) (address : string)
    (w : World) :
  if Ekiden.fortyHexDigits address
  then exists bytes,
         Ekiden.DecodeString address = Some bytes
         /\ length bytes = 20%nat
         /\ GetPublicKey c address w =
              match keyManager_GetPublicKey bytes w with
              | (inr err, w') =>
                  (inr {| Ekiden.Kind := Ekiden.ErrEkidenGetPublicKey;
                          Ekiden.Cause := Some (Ekiden.causeText err) |}, w')
              | (inl _, w') =>
                  (inl {| Ekiden.Timestamp := 0; Ekiden.Address := "";
                          Ekiden.PublicKey := ""; Ekiden.Signature := "" |}, w')
              end
  else exists cause,
         GetPublicKey c address w =
           (inr {| Ekiden.Kind := Ekiden.ErrInvalidAddress; Ekiden.Cause := cause |}, w).
Proof.
  pose proof (fortyHexDigits_decodes address) as Hdec.
  unfold Ekiden.GetPublicKey.
  destruct (Ekiden.fortyHexDigits address).
  - destruct Hdec as (bytes & -> & Hlen). exists bytes.
    split; [done|]. split; [done|]. rewrite Hlen. cbn [Z.of_nat negb].
    reflexivity.
  - destruct Hdec as [->|(bytes & -> & Hlen)]; [by eexists|].
    destruct (Z.eqb_spec (Z.of_nat (length bytes)) 20) as [H20|_]; [lia|].
    by eexists.
Qed.

(** In particular an address with the 0x prefix the rest of the gateway uses is
    never accepted by the ekiden client's [GetPublicKey]: it is answered
    with the invalid-address error without asking the key manager. *)
Theorem GetPublicKey_rejects_0x_prefix (c : Ekiden.Client) (rest : string)
    (w : World) :
  GetPublicKey c (String "0" (String "x" rest)) w =
    (inr {| Ekiden.Kind := Ekiden.ErrInvalidAddress;
            Ekiden.Cause := Some Ekiden.causeHex |}, w).
Proof. reflexivity. Qed.

(** What [submitTx] does, by the stage that fails. *)
Lemma submitTx_outcome (c : Ekiden.Client) (address data : string) (w : World) :
  let tx := Ekiden.createTx HexToAddress address data in
  match SignTx tx with
  | inr err =>
      submitTx c address data w =
        (Some {| Ekiden.Kind := Ekiden.ErrEkidenSignTx;
                 Ekiden.Cause := Some (Ekiden.causeText err) |}, w)
  | inl signed =>
      match EncodeRLP signed with
      | inr err =>
          submitTx c address data w =
            (Some {| Ekiden.Kind := Ekiden.ErrEkidenEncodeRLPTx;
                     Ekiden.Cause := Some (Ekiden.causeText err) |}, w)
      | inl p =>
          submitTx c address data w =
            match runtime_EthereumTransaction (Ekiden.runtimeID c) p w with
            | (inr derr, w') =>
                (Some {| Ekiden.Kind := Ekiden.ErrEkidenSubmitTx;
                         Ekiden.Cause := Some (Ekiden.causeText derr) |}, w')
            | (inl _, w') => (None, w')
            end
      end
  end.
Proof.
  cbn zeta. unfold Ekiden.submitTx, Ekiden.generateTx.
  destruct (SignTx _) as [signed|err]; [|reflexivity].
  destruct (EncodeRLP signed) as [p|err]; reflexivity.
Qed.

(** X22: when the ekiden client's [DeployService] succeeds, the runtime has
    accepted the encoding of a signed contract creation with nonce 0, gas
    limit 1000000, gas price 1000000000 and value 0, whatever was deployed
    before with the same wallet, and the response carries the id but an
    empty address: the address of the new contract is not reported. *)
Theorem ekiden_deploy_reports_no_address (c : Ekiden.Client) (id : Z)
    (req : Eth.DeployServiceRequest) (w w' : World)
    (resp : Ekiden.DeployServiceResponse) :
  DeployService c id req w = (inl resp, w') ->
  resp = {| Ekiden.dsID := id; Ekiden.dsAddress := "" |}
  /\ exists signed p reply,
       SignTx (Eth.NewContractCreation 0 0 1000000 1000000000 (Eth.dsData req))
         = inl signed
       /\ EncodeRLP signed = inl p
       /\ runtime_EthereumTransaction (Ekiden.runtimeID c) p w = (inl reply, w').
Proof.
  unfold Ekiden.DeployService.
  pose proof (submitTx_outcome c "" (Eth.dsData req) w) as Hout.
  cbn zeta in Hout. change (Ekiden.createTx HexToAddress "" (Eth.dsData req))
    with (Eth.NewContractCreation 0 0 1000000 1000000000 (Eth.dsData req)) in Hout.
  destruct (SignTx _) as [signed|err] eqn:Hsign; [|rewrite Hout; done].
  destruct (EncodeRLP signed) as [p|err] eqn:Henc; [|rewrite Hout; done].
  rewrite Hout.
  destruct (runtime_EthereumTransaction _ p w) as [[reply|derr] w1] eqn:Hrun; [|done].
  intros [= <- <-]. split; [reflexivity|]. exists signed, p, reply.
  repeat split; done.
Qed.

(** X23: the ekiden client's [ExecuteService] does not check the address:
    with an empty address it submits a contract creation, as a deployment
    would, and still answers with an execute response, whose address and
    output are empty; with any other address it submits a call to that
    address. Either way the transaction has nonce 0. *)
Theorem ekiden_execute_with_empty_address_deploys (c : Ekiden.Client) (id : Z)
    (req : Eth.ExecuteServiceRequest) (w w' : World)
    (resp : Ekiden.ExecuteServiceResponse) :
  ExecuteService c id req w = (inl resp, w') ->
  resp = {| Ekiden.esID := id; Ekiden.esAddress := Eth.esAddress req;
            Ekiden.esOutput := "" |}
  /\ exists tx signed p reply,
       SignTx tx = inl signed
       /\ EncodeRLP signed = inl p
       /\ runtime_EthereumTransaction (Ekiden.runtimeID c) p w = (inl reply, w')
       /\ Eth.txNonce tx = 0
       /\ (Eth.esAddress req = "" ->
             tx = Eth.NewContractCreation 0 0 1000000 1000000000 (Eth.esData req))
       /\ (Eth.esAddress req <> "" ->
             tx = Eth.NewTransaction 0 (HexToAddress (Eth.esAddress req)) 0 1000000
                    1000000000 (Eth.esData req)).
Proof.
  unfold Ekiden.ExecuteService.
  pose proof (submitTx_outcome c (Eth.esAddress req) (Eth.esData req) w) as Hout.
  cbn zeta in Hout.
  destruct (SignTx _) as [signed|err] eqn:Hsign; [|rewrite Hout; done].
  destruct (EncodeRLP signed) as [p|err] eqn:Henc; [|rewrite Hout; done].
  rewrite Hout.
  destruct (runtime_EthereumTransaction _ p w) as [[reply|derr] w1] eqn:Hrun; [|done].
  intros [= <- <-]. split; [reflexivity|].
  exists (Ekiden.createTx HexToAddress (Eth.esAddress req) (Eth.esData req)),
    signed, p, reply.
  split; [done|]. split; [done|]. split; [done|].
  unfold Ekiden.createTx.
  destruct (Z.eqb_spec (len (Eth.esAddress req)) 0) as [H0|Hn0].
  - apply len_zero_iff in H0. split; [reflexivity|]. split; [done|]. done.
  - split; [reflexivity|]. split; [|done].
    intros Hempty. apply len_zero_iff in Hempty. done.
Qed.

End EkidenClient.

Lemma ekiden_deploy_reports_no_address_witness :
  fst (Ekiden.DeployService nat unit sampleRuntime scriptedSignTx sampleEncodeRLP
         (fun a => a) {| Ekiden.runtimeID := [0] |} 7
         {| Eth.dsData := "0x00"; Eth.dsKey := "k" |} 0%nat)
    = inl {| Ekiden.dsID := 7; Ekiden.dsAddress := "" |}.
Proof.
  destruct (ekiden_deploy_reports_no_address nat unit sampleRuntime scriptedSignTx
              sampleEncodeRLP (fun a => a) {| Ekiden.runtimeID := [0] |} 7
              {| Eth.dsData := "0x00"; Eth.dsKey := "k" |} 0%nat 1%nat
              {| Ekiden.dsID := 7; Ekiden.dsAddress := "" |} eq_refl)
    as [_ _].
  reflexivity.
Defined.

Lemma ekiden_execute_with_empty_address_deploys_witness :
  exists tx,
    Eth.isContractCreation tx = true
    /\ Eth.txNonce tx = 0
    /\ tx = Eth.NewContractCreation 0 0 1000000 1000000000 "0x00".
Proof.
  destruct (ekiden_execute_with_empty_address_deploys nat unit sampleRuntime
              scriptedSignTx sampleEncodeRLP (fun a => a)
              {| Ekiden.runtimeID := [0] |} 7
              {| Eth.esData := "0x00"; Eth.esAddress := ""; Eth.esKey := "k" |}
              0%nat 1%nat
              {| Ekiden.esID := 7; Ekiden.esAddress := ""; Ekiden.esOutput := "" |}
              eq_refl)
    as (_ & tx & signed & p & reply & _ & _ & _ & Hn & Hcreate & _).
  exists tx. rewrite (Hcreate eq_refl). repeat split.
Defined.
